(** * LIN master on an ESP32 HardwareSerial: the three step methods

    A shallow embedding of [LIN_master_HardwareSerial_ESP32.cpp]: the
    protected methods [_sendBreak], [_sendFrame] and [_receiveFrame] of class
    [LIN_Master_HardwareSerial_ESP32], written in a state monad over the
    object, its serial port and the microsecond clock. *)

From Stdlib Require Import ZArith List Bool Lia.
From ExtLib Require Import Structures.Monad Structures.MonadState.
From ExtLib Require Import Data.Monads.StateMonad.
Import ListNotations.
Import MonadNotation.
Local Open Scope monad_scope.
Local Open Scope Z_scope.

(* ===================================================================== *)
(** ** Machine integers *)

(** [uint32_t] values are integers reduced modulo 2^32; [micros()] and all
    time stamps of the class have this type. *)
Definition u32 (z : Z) : Z := z mod 2 ^ 32.

(** [a - b] on two [uint32_t] operands. *)
Definition u32_sub (a b : Z) : Z := u32 (a - b).

(** [a << 1] on a [uint32_t] operand. *)
Definition u32_shl1 (a : Z) : Z := u32 (Z.shiftl a 1).

(** Conversion of an [int] to [size_t] (32 bits on the ESP32), as it happens
    to the length argument of [write(const uint8_t*, size_t)]. *)
Definition size_t_of_int (z : Z) : nat := Z.to_nat (u32 z).

(* ===================================================================== *)
(** ** Data of the base class *)

(** Modelled from the spec: the enum [LIN_Master::state_t] is declared in
    [LIN_master.h], which is not part of the sources at hand; the spec lists
    the states of a transaction as IDLE, BREAK, BODY and DONE. *)
Inductive state_t : Type :=
| STATE_IDLE
| STATE_BREAK
| STATE_BODY
| STATE_DONE.

Definition state_eqb (a b : state_t) : bool :=
  match a, b with
  | STATE_IDLE, STATE_IDLE
  | STATE_BREAK, STATE_BREAK
  | STATE_BODY, STATE_BODY
  | STATE_DONE, STATE_DONE => true
  | _, _ => false
  end.

(** The fields of the object that the three methods touch.  [timeStartBreak]
    is declared in [LIN_master_HardwareSerial_ESP32.h]; the others are
    inherited.  [error] holds the bitmask of [error_t] as an integer, the
    buffers are the byte arrays [bufTx] and [bufRx]. *)
Record LIN_Master : Type := mkLIN
  { state          : state_t
  ; error          : Z
  ; baudrate       : Z
  ; timePerByte    : Z
  ; timeMax        : Z
  ; timeStart      : Z
  ; lenTx          : Z
  ; bufTx          : list Z
  ; lenRx          : Z
  ; bufRx          : list Z
  ; timeStartBreak : Z
  }.

Definition with_state (v : state_t) (o : LIN_Master) : LIN_Master :=
  mkLIN v (error o) (baudrate o) (timePerByte o) (timeMax o) (timeStart o)
        (lenTx o) (bufTx o) (lenRx o) (bufRx o) (timeStartBreak o).

Definition with_error (v : Z) (o : LIN_Master) : LIN_Master :=
  mkLIN (state o) v (baudrate o) (timePerByte o) (timeMax o) (timeStart o)
        (lenTx o) (bufTx o) (lenRx o) (bufRx o) (timeStartBreak o).

Definition with_bufRx (v : list Z) (o : LIN_Master) : LIN_Master :=
  mkLIN (state o) (error o) (baudrate o) (timePerByte o) (timeMax o)
        (timeStart o) (lenTx o) (bufTx o) (lenRx o) v (timeStartBreak o).

Definition with_timeStartBreak (v : Z) (o : LIN_Master) : LIN_Master :=
  mkLIN (state o) (error o) (baudrate o) (timePerByte o) (timeMax o)
        (timeStart o) (lenTx o) (bufTx o) (lenRx o) (bufRx o) v.

(** What the methods use from [LIN_Master] without its definition being in
    the sources: the two error bits they set themselves and the frame check
    [_checkFrame()], taken as a function that inspects the object, leaves it
    as it is and returns error bits. *)
Class LIN_Master_base : Type :=
  { ERROR_STATE   : Z
  ; ERROR_TIMEOUT : Z
  ; _checkFrame   : LIN_Master -> Z
  }.

(* ===================================================================== *)
(** ** The serial port, the clock and the trace of calls *)

(** Every call the methods make on [pSerial] or on [micros()], with what it
    was given or what it returned. *)
Inductive event : Type :=
| EvFlush
| EvAvailable (n : Z)
| EvRead (b : Z)
| EvUpdateBaudRate (rate : Z)
| EvWrite (b : Z)
| EvWriteBuf (bytes : list Z)
| EvReadBytes (bytes : list Z)
| EvMicros (t : Z).

(** The receive queue of the port and its current baud rate.  Bytes arrive
    between calls of the step methods; during one call the queue only
    shrinks. *)
Record HardwareSerial : Type := mkSerial
  { rx   : list Z
  ; baud : Z
  }.

(** The whole system one step method runs in: the object, its port, the
    clock ([micros_src k] is what the [k]-th reading of [micros()] shows) and
    the calls made so far, oldest first. *)
Record System : Type := mkSystem
  { this         : LIN_Master
  ; pSerial      : HardwareSerial
  ; micros_src   : nat -> Z
  ; micros_reads : nat
  ; trace        : list event
  }.

Definition with_this (o : LIN_Master) (w : System) : System :=
  mkSystem o (pSerial w) (micros_src w) (micros_reads w) (trace w).

Definition with_pSerial (p : HardwareSerial) (w : System) : System :=
  mkSystem (this w) p (micros_src w) (micros_reads w) (trace w).

Definition log (e : event) (w : System) : System :=
  mkSystem (this w) (pSerial w) (micros_src w) (micros_reads w)
           (trace w ++ [e]).

Definition tick (w : System) : System :=
  mkSystem (this w) (pSerial w) (micros_src w) (S (micros_reads w)) (trace w).

(** The monad of the step methods. *)
Definition M : Type -> Type := StateMonad.state System.

Definition update (f : System -> System) : M unit :=
  w <- get ;; put (f w).

Definition field {A : Type} (f : LIN_Master -> A) : M A :=
  w <- get ;; ret (f (this w)).

Definition set_state (v : state_t) : M unit :=
  update (fun w => with_this (with_state v (this w)) w).

Definition set_error (v : Z) : M unit :=
  update (fun w => with_this (with_error v (this w)) w).

Definition set_bufRx (v : list Z) : M unit :=
  update (fun w => with_this (with_bufRx v (this w)) w).

Definition set_timeStartBreak (v : Z) : M unit :=
  update (fun w => with_this (with_timeStartBreak v (this w)) w).

(** [micros()] *)
Definition micros : M Z :=
  w <- get ;;
  let t := u32 (micros_src w (micros_reads w)) in
  put (log (EvMicros t) (tick w)) ;;
  ret t.

(** [pSerial->flush()] waits for the transmitter; the queue stays. *)
Definition Serial_flush : M unit := update (log EvFlush).

(** [pSerial->available()] *)
Definition Serial_available : M Z :=
  w <- get ;;
  let n := Z.of_nat (length (rx (pSerial w))) in
  put (log (EvAvailable n) w) ;;
  ret n.

(** [pSerial->read()]: the oldest byte, or -1 on an empty queue. *)
Definition Serial_read : M Z :=
  w <- get ;;
  match rx (pSerial w) with
  | [] => put (log (EvRead (-1)) w) ;; ret (-1)
  | b :: q =>
      put (log (EvRead b) (with_pSerial (mkSerial q (baud (pSerial w))) w)) ;;
      ret b
  end.

(** [pSerial->updateBaudRate(rate)] *)
Definition Serial_updateBaudRate (rate : Z) : M unit :=
  update (fun w =>
    log (EvUpdateBaudRate rate)
        (with_pSerial (mkSerial (rx (pSerial w)) rate) w)).

(** [pSerial->write(b)] *)
Definition Serial_write (b : Z) : M unit := update (log (EvWrite b)).

(** [pSerial->write(buf, len)] with the bytes [buf[0..len-1]] in [bytes]. *)
Definition Serial_writeBuf (bytes : list Z) : M unit :=
  update (log (EvWriteBuf bytes)).

(** [pSerial->readBytes(buf, len)]: the [len] oldest bytes leave the queue
    (fewer when the queue is shorter and the read times out). *)
Definition Serial_readBytes (len : nat) : M (list Z) :=
  w <- get ;;
  let got := firstn len (rx (pSerial w)) in
  put (log (EvReadBytes got)
           (with_pSerial (mkSerial (skipn len (rx (pSerial w)))
                                   (baud (pSerial w))) w)) ;;
  ret got.

(** [buf + off, len]: the bytes a pointer into an array and a length
    designate.  A list ends where the array ends; the C code would go on
    reading the memory behind it. *)
Definition slice (buf : list Z) (off len : nat) : list Z :=
  firstn len (skipn off buf).

(** Storing [got] at the start of the array [buf].  More bytes than the
    array holds make the list longer, where the C code would write behind
    the array. *)
Definition store (got buf : list Z) : list Z :=
  got ++ skipn (length got) buf.

(* ===================================================================== *)
(** ** The step methods *)

Section Methods.

Context {base : LIN_Master_base}.

(** [this->error = (error_t) ((int) this->error | (int) bits)] *)
Definition or_error (bits : Z) : M unit :=
  e <- field error ;; set_error (Z.lor e bits).

(** [while (this->pSerial->available()) this->pSerial->read();] with a bound
    on the number of rounds. *)
Fixpoint drain (fuel : nat) : M unit :=
  n <- Serial_available ;;
  if n =? 0 then ret tt
  else match fuel with
       | O => ret tt
       | S fuel' => Serial_read ;; drain fuel'
       end.

Definition _sendBreak : M state_t :=
  st <- field state ;;
  if negb (state_eqb st STATE_IDLE) then
    or_error ERROR_STATE ;;
    set_state STATE_DONE ;;
    field state
  else
    Serial_flush ;;
    w <- get ;;
    drain (length (rx (pSerial w))) ;;
    b <- field baudrate ;;
    Serial_updateBaudRate (Z.shiftr b 1) ;;
    tx <- field bufTx ;;
    Serial_write (nth 0 tx 0) ;;
    t <- micros ;;
    set_timeStartBreak t ;;
    set_state STATE_BREAK ;;
    field state.

Definition _sendFrame : M state_t :=
  st <- field state ;;
  if negb (state_eqb st STATE_BREAK) then
    or_error ERROR_STATE ;;
    set_state STATE_DONE ;;
    field state
  else
    t <- micros ;;
    t0 <- field timeStartBreak ;;
    tpb <- field timePerByte ;;
    (if u32_sub t t0 >? u32_shl1 tpb then
       b <- field baudrate ;;
       Serial_updateBaudRate b ;;
       tx <- field bufTx ;;
       n <- field lenTx ;;
       Serial_writeBuf (slice tx 1 (size_t_of_int (n - 1))) ;;
       set_state STATE_BODY
     else
       t' <- micros ;;
       ts <- field timeStart ;;
       tm <- field timeMax ;;
       if u32_sub t' ts >? tm then
         or_error ERROR_TIMEOUT ;;
         set_state STATE_DONE
       else ret tt) ;;
    field state.

Definition _receiveFrame : M state_t :=
  st <- field state ;;
  if negb (state_eqb st STATE_BODY) then
    or_error ERROR_STATE ;;
    set_state STATE_DONE ;;
    field state
  else
    avail <- Serial_available ;;
    n <- field lenRx ;;
    (if avail >=? n then
       got <- Serial_readBytes (Z.to_nat n) ;;
       rxb <- field bufRx ;;
       set_bufRx (store got rxb) ;;
       o <- field (fun o => o) ;;
       or_error (_checkFrame o) ;;
       set_state STATE_DONE
     else
       t' <- micros ;;
       ts <- field timeStart ;;
       tm <- field timeMax ;;
       if u32_sub t' ts >? tm then
         or_error ERROR_TIMEOUT ;;
         set_state STATE_DONE
       else ret tt) ;;
    field state.

End Methods.

(* ===================================================================== *)
(** ** Vocabulary of the statements *)

(** The three step methods, the state each one's guard asks for, and the
    method itself. *)
Inductive step : Type :=
| SendBreak
| SendFrame
| ReceiveFrame.

Definition expects (m : step) : state_t :=
  match m with
  | SendBreak => STATE_IDLE
  | SendFrame => STATE_BREAK
  | ReceiveFrame => STATE_BODY
  end.

Definition run_step {base : LIN_Master_base} (m : step) : M state_t :=
  match m with
  | SendBreak => _sendBreak
  | SendFrame => _sendFrame
  | ReceiveFrame => _receiveFrame
  end.

(** The system [w] after [bits] were or-ed into [error] and [state] was set
    to [STATE_DONE], everything else as it was. *)
Definition aborted (bits : Z) (w : System) : System :=
  with_this
    (with_state STATE_DONE
       (with_error (Z.lor (error (this w)) bits) (this w))) w.

(** One reading of the clock: what it showed, and the system after it. *)
Definition now (w : System) : Z := u32 (micros_src w (micros_reads w)).

Definition after_micros (w : System) : System :=
  log (EvMicros (now w)) (tick w).

(** One call of [available()]: what it returned, and the system after it. *)
Definition avail (w : System) : Z := Z.of_nat (length (rx (pSerial w))).

Definition after_available (w : System) : System :=
  log (EvAvailable (avail w)) w.

(** The three tests of the methods, on what the clock or the port shows in
    [w]: [(micros() - timeStartBreak) > (timePerByte << 1)],
    [micros() - timeStart > timeMax] and [available() >= lenRx]. *)
Definition break_elapsed (w : System) : bool :=
  u32_sub (now w) (timeStartBreak (this w)) >? u32_shl1 (timePerByte (this w)).

Definition deadline_passed (w : System) : bool :=
  u32_sub (now w) (timeStart (this w)) >? timeMax (this w).

Definition frame_arrived (w : System) : bool :=
  avail w >=? lenRx (this w).

(** The calls of the loop that empties a receive queue [q]. *)
Fixpoint drain_calls (q : list Z) : list event :=
  match q with
  | [] => [EvAvailable 0]
  | b :: q' => EvAvailable (Z.of_nat (length q)) :: EvRead b :: drain_calls q'
  end.

(** The bytes [_sendFrame] hands to [write]. *)
Definition frame_rest (o : LIN_Master) : list Z :=
  slice (bufTx o) 1 (size_t_of_int (lenTx o - 1)).

(** The bytes [_receiveFrame] takes from the queue. *)
Definition frame_read (w : System) : list Z :=
  firstn (Z.to_nat (lenRx (this w))) (rx (pSerial w)).

(** The object as [_checkFrame] finds it in [_receiveFrame]: the bytes read
    are in [bufRx], nothing else has changed yet. *)
Definition received (w : System) : LIN_Master :=
  with_bufRx (store (frame_read w) (bufRx (this w))) (this w).

(** [bits] has no bit in common with [mask]. *)
Definition clear_of (mask bits : Z) : Prop := Z.land bits mask = 0.

(** Every bit of [e] is a bit of [e']. *)
Definition keeps_bits (e e' : Z) : Prop :=
  forall i : Z, Z.testbit e i = true -> Z.testbit e' i = true.

(** The calls of [read()] among the calls made. *)
Definition is_read (e : event) : bool :=
  match e with
  | EvRead _ => true
  | _ => false
  end.

(* ===================================================================== *)
(** ** A concrete base class and concrete systems *)

Fixpoint bytes_eqb (a b : list Z) : bool :=
  match a, b with
  | [], [] => true
  | x :: a', y :: b' => (x =? y) && bytes_eqb a' b'
  | _, _ => false
  end.

(** A stand-in for the frame check, to run the methods on concrete inputs:
    bit 1 when the first [lenTx] bytes received differ from those sent. *)
Definition sample_checkFrame (o : LIN_Master) : Z :=
  let n := Z.to_nat (lenTx o) in
  if bytes_eqb (firstn n (bufRx o)) (firstn n (bufTx o)) then 0 else 2.

Definition sample_base : LIN_Master_base :=
  {| ERROR_STATE := 1; ERROR_TIMEOUT := 4; _checkFrame := sample_checkFrame |}.

(** A read request of two data bytes at 19200 Baud: BREAK, SYNC and the
    identifier are sent, six bytes are expected back. *)
Definition sample_object (st : state_t) (err : Z) : LIN_Master :=
  {| state := st; error := err; baudrate := 19200; timePerByte := 520;
     timeMax := 5000; timeStart := 1000;
     lenTx := 3; bufTx := [0; 85; 80; 0; 0; 0; 0; 0; 0; 0; 0; 0];
     lenRx := 6; bufRx := [0; 0; 0; 0; 0; 0; 0; 0; 0; 0; 0; 0];
     timeStartBreak := 1100 |}.

Definition sample_system (st : state_t) (err : Z) (queue : list Z)
    (clock : nat -> Z) : System :=
  {| this := sample_object st err;
     pSerial := {| rx := queue; baud := 19200 |};
     micros_src := clock; micros_reads := 0; trace := [] |}.

(** Clocks: one that stands at [t], one that shows [t] and then [t']. *)
Definition clock_at (t : Z) : nat -> Z := fun _ => t.

Definition clock_then (t t' : Z) : nat -> Z :=
  fun k => match k with O => t | S _ => t' end.

(** Systems for the paths of the methods.  The object has [timeStart] 1000,
    [timeStartBreak] 1100, [timePerByte] 520 and [timeMax] 5000, so the
    break is over after time 2140 and the deadline has passed after 6000. *)

(** Idle, two stray bytes in the queue. *)
Definition sys_idle : System :=
  sample_system STATE_IDLE 0 [17; 34] (clock_at 1100).

(** In BREAK, read at 2200: the break is over. *)
Definition sys_break_over : System :=
  sample_system STATE_BREAK 0 [] (clock_at 2200).

(** In BREAK, read at 9000: the break is over and the deadline has passed. *)
Definition sys_break_over_late : System :=
  sample_system STATE_BREAK 0 [] (clock_at 9000).

(** In BREAK, read at 1500 and then at 7000, 6000 or 3000: the break is not
    over; the deadline has passed, is just reached, or is ahead. *)
Definition sys_break_timeout : System :=
  sample_system STATE_BREAK 0 [] (clock_then 1500 7000).

Definition sys_break_boundary : System :=
  sample_system STATE_BREAK 0 [] (clock_then 1500 6000).

Definition sys_break_waiting : System :=
  sample_system STATE_BREAK 0 [] (clock_then 1500 3000).

(** In BODY with the echo of the header, two data bytes, a checksum and one
    byte more in the queue; read at 2500 or, late, at 9000. *)
Definition sys_body_frame : System :=
  sample_system STATE_BODY 0 [0; 85; 80; 1; 2; 252; 99] (clock_at 2500).

Definition sys_body_frame_late : System :=
  sample_system STATE_BODY 0 [0; 85; 80; 1; 2; 252; 99] (clock_at 9000).

(** In BODY with two bytes in the queue, read at 7000, 6000 or 3000; the
    first with the echo bit already set in [error]. *)
Definition sys_body_timeout : System :=
  sample_system STATE_BODY 2 [0; 85] (clock_at 7000).

Definition sys_body_boundary : System :=
  sample_system STATE_BODY 0 [0; 85] (clock_at 6000).

Definition sys_body_waiting : System :=
  sample_system STATE_BODY 0 [0; 85] (clock_at 3000).

(* ===================================================================== *)
(** ** Callers and surroundings of the step methods *)

(** Position of a state in the course of a transaction. *)
Definition rank (s : state_t) : nat :=
  match s with
  | STATE_IDLE => 0
  | STATE_BREAK => 1
  | STATE_BODY => 2
  | STATE_DONE => 3
  end.

(** The bytes handed to [write] by the calls [evs], in their order. *)
Fixpoint written (evs : list event) : list Z :=
  match evs with
  | [] => []
  | EvWrite b :: evs' => b :: written evs'
  | EvWriteBuf bytes :: evs' => bytes ++ written evs'
  | _ :: evs' => written evs'
  end.

(** The bus between two calls: [bytes] reach the end of the receive
    queue. *)
Definition arrive (bytes : list Z) : M unit :=
  update (fun w =>
    with_pSerial (mkSerial (rx (pSerial w) ++ bytes) (baud (pSerial w))) w).

(** A caller that runs the step [m] [n] times in a row, nothing arriving
    in between, and then looks at [state]. *)
Fixpoint poll {base : LIN_Master_base} (m : step) (n : nat) : M state_t :=
  match n with
  | O => field state
  | S n' => run_step m ;; poll m n'
  end.

(** One transaction without waiting: the break, [a1] arriving, the rest of
    the frame, [a2] arriving, and the reception. *)
Definition transaction {base : LIN_Master_base} (a1 a2 : list Z)
    : M state_t :=
  _sendBreak ;; arrive a1 ;; _sendFrame ;; arrive a2 ;; _receiveFrame.

(** The clock as the [k]-th reading after the entry into [w] shows it. *)
Definition reading (w : System) (k : nat) : Z :=
  u32 (micros_src w (micros_reads w + k)).

(** A write request of two data bytes: the six bytes sent are expected
    back as their echo.  The queue and the clock are as given. *)
Definition request_system (st : state_t) (queue : list Z)
    (clock : nat -> Z) : System :=
  {| this :=
       {| state := st; error := 0; baudrate := 19200; timePerByte := 520;
          timeMax := 5000; timeStart := 1000;
          lenTx := 6; bufTx := [0; 85; 80; 1; 2; 252; 0; 0; 0; 0; 0; 0];
          lenRx := 6; bufRx := [9; 9; 9; 9; 9; 9; 9; 9; 9; 9; 9; 9];
          timeStartBreak := 0 |};
     pSerial := {| rx := queue; baud := 19200 |};
     micros_src := clock; micros_reads := 0; trace := [] |}.

(** A system in the state [st] with the fields [lenRx], [timeStart] and
    [timeMax] as given, two bytes in the queue. *)
Definition timing_system (st : state_t) (len start max : Z)
    (clock : nat -> Z) : System :=
  {| this :=
       {| state := st; error := 0; baudrate := 19200;
          timePerByte := 520; timeMax := max; timeStart := start;
          lenTx := 3; bufTx := [0; 85; 80; 0; 0; 0; 0; 0; 0; 0; 0; 0];
          lenRx := len; bufRx := [0; 0; 0; 0; 0; 0; 0; 0; 0; 0; 0; 0];
          timeStartBreak := 1100 |};
     pSerial := {| rx := [0; 85]; baud := 19200 |};
     micros_src := clock; micros_reads := 0; trace := [] |}.

(** A clock that shows [t] first and [d] more with every reading. *)
Definition clock_steps (t d : Z) : nat -> Z := fun k => t + d * Z.of_nat k.

(* ===================================================================== *)
(** ** Arithmetic and list facts *)

Lemma u32_shl1_double (a : Z) : u32_shl1 a = u32 (a * 2).
Proof.
  unfold u32_shl1. rewrite Z.shiftl_mul_pow2 by lia. reflexivity.
Qed.

Lemma u32_small (a : Z) : 0 <= a < 2 ^ 32 -> u32 a = a.
Proof. intros H. unfold u32. apply Z.mod_small. exact H. Qed.

Lemma size_t_of_int_small (n : Z) :
  0 <= n < 2 ^ 32 -> size_t_of_int n = Z.to_nat n.
Proof. intros H. unfold size_t_of_int. rewrite u32_small; auto. Qed.

Lemma slice_length (buf : list Z) (off len : nat) :
  (off + len <= length buf)%nat -> length (slice buf off len) = len.
Proof.
  intros H. unfold slice. rewrite length_firstn, length_skipn. lia.
Qed.

Lemma slice_nth (buf : list Z) (off len i : nat) (d : Z) :
  (i < len)%nat -> nth i (slice buf off len) d = nth (off + i) buf d.
Proof.
  intros H. unfold slice.
  rewrite nth_firstn.
  destruct (Nat.ltb_spec i len) as [_ | Hge]; [| lia].
  apply nth_skipn.
Qed.

Lemma store_nth_new (got buf : list Z) (i : nat) (d : Z) :
  (i < length got)%nat -> nth i (store got buf) d = nth i got d.
Proof. intros H. unfold store. apply app_nth1. exact H. Qed.

Lemma store_nth_old (got buf : list Z) (i : nat) (d : Z) :
  (length got <= i)%nat -> nth i (store got buf) d = nth i buf d.
Proof.
  intros H. unfold store. rewrite app_nth2 by exact H.
  rewrite nth_skipn. f_equal. lia.
Qed.

Lemma keeps_bits_lor (e bits : Z) : keeps_bits e (Z.lor e bits).
Proof.
  intros i Hi. rewrite Z.lor_spec, Hi. reflexivity.
Qed.

Lemma keeps_bits_refl (e : Z) : keeps_bits e e.
Proof. intros i Hi. exact Hi. Qed.

Lemma clear_of_lor (mask a b : Z) :
  clear_of mask a -> clear_of mask b -> clear_of mask (Z.lor a b).
Proof.
  unfold clear_of. intros Ha Hb.
  rewrite Z.land_lor_distr_l, Ha, Hb. reflexivity.
Qed.

Lemma state_eqb_eq (a b : state_t) : state_eqb a b = true <-> a = b.
Proof. destruct a, b; simpl; split; intros H; congruence. Qed.

Lemma state_eqb_neq (a b : state_t) : state_eqb a b = false <-> a <> b.
Proof. destruct a, b; simpl; split; intros H; congruence. Qed.

(* ===================================================================== *)
(** ** The paths through the methods *)

Section Paths.

Context {base : LIN_Master_base}.

(** The emptying loop ends with an empty queue when it is given at least as
    many rounds as there are bytes. *)
Lemma drain_run (fuel : nat) :
  forall w : System,
    (length (rx (pSerial w)) <= fuel)%nat ->
    runState (drain fuel) w =
    (tt, mkSystem (this w) (mkSerial [] (baud (pSerial w))) (micros_src w)
                  (micros_reads w) (trace w ++ drain_calls (rx (pSerial w)))).
Proof.
  induction fuel as [| fuel IH]; intros [o [q bd] src k tr] Hlen;
    destruct q as [| b q]; cbn in Hlen; try lia.
  - reflexivity.
  - reflexivity.
  - simpl runState. rewrite IH by (cbn; lia).
    cbn. repeat rewrite <- app_assoc. reflexivity.
Qed.

Ltac enter H :=
  cbn; rewrite H; cbn.

Ltac settle :=
  unfold aborted, after_micros, after_available, now, avail, frame_rest,
    frame_read, received, with_this, with_pSerial, log, tick;
  cbn; repeat rewrite <- app_assoc; reflexivity.

Lemma guard_fails (m : step) (w : System) :
  state (this w) <> expects m ->
  runState (run_step m) w = (STATE_DONE, aborted ERROR_STATE w).
Proof.
  intros H. apply state_eqb_neq in H.
  destruct m; cbn in H;
    unfold run_step, _sendBreak, _sendFrame, _receiveFrame;
    enter H; reflexivity.
Qed.

Lemma sendBreak_run (w : System) :
  state (this w) = STATE_IDLE ->
  runState _sendBreak w =
  (STATE_BREAK,
   mkSystem
     (with_state STATE_BREAK (with_timeStartBreak (now w) (this w)))
     (mkSerial [] (Z.shiftr (baudrate (this w)) 1))
     (micros_src w) (S (micros_reads w))
     (trace w ++ EvFlush :: drain_calls (rx (pSerial w)) ++
        [EvUpdateBaudRate (Z.shiftr (baudrate (this w)) 1);
         EvWrite (nth 0 (bufTx (this w)) 0);
         EvMicros (now w)])).
Proof.
  intros H. unfold _sendBreak. cbn -[drain]. rewrite H. cbn -[drain].
  rewrite drain_run by (cbn; lia).
  settle.
Qed.

Lemma sendFrame_body (w : System) :
  state (this w) = STATE_BREAK ->
  break_elapsed w = true ->
  runState _sendFrame w =
  (STATE_BODY,
   mkSystem
     (with_state STATE_BODY (this w))
     (mkSerial (rx (pSerial w)) (baudrate (this w)))
     (micros_src w) (S (micros_reads w))
     (trace w ++ [EvMicros (now w); EvUpdateBaudRate (baudrate (this w));
                  EvWriteBuf (frame_rest (this w))])).
Proof.
  intros H Hc. unfold _sendFrame. enter H.
  unfold break_elapsed, now in Hc. rewrite Hc.
  settle.
Qed.

Lemma sendFrame_timeout (w : System) :
  state (this w) = STATE_BREAK ->
  break_elapsed w = false ->
  deadline_passed (after_micros w) = true ->
  runState _sendFrame w =
  (STATE_DONE, aborted ERROR_TIMEOUT (after_micros (after_micros w))).
Proof.
  intros H Hc Ht. unfold _sendFrame. enter H.
  unfold break_elapsed, now in Hc. rewrite Hc.
  cbn. unfold deadline_passed, now in Ht. cbn in Ht. rewrite Ht. reflexivity.
Qed.

Lemma sendFrame_wait (w : System) :
  state (this w) = STATE_BREAK ->
  break_elapsed w = false ->
  deadline_passed (after_micros w) = false ->
  runState _sendFrame w = (STATE_BREAK, after_micros (after_micros w)).
Proof.
  intros H Hc Ht. unfold _sendFrame. enter H.
  unfold break_elapsed, now in Hc. rewrite Hc.
  cbn. unfold deadline_passed, now in Ht. cbn in Ht. rewrite Ht.
  cbn. rewrite H. reflexivity.
Qed.

Lemma receiveFrame_done (w : System) :
  state (this w) = STATE_BODY ->
  frame_arrived w = true ->
  runState _receiveFrame w =
  (STATE_DONE,
   mkSystem
     (with_state STATE_DONE
        (with_error (Z.lor (error (this w)) (_checkFrame (received w)))
                    (received w)))
     (mkSerial (skipn (Z.to_nat (lenRx (this w))) (rx (pSerial w)))
               (baud (pSerial w)))
     (micros_src w) (micros_reads w)
     (trace w ++ [EvAvailable (avail w); EvReadBytes (frame_read w)])).
Proof.
  intros H Hc. unfold _receiveFrame. enter H.
  unfold frame_arrived, avail in Hc. rewrite Hc.
  settle.
Qed.

Lemma receiveFrame_timeout (w : System) :
  state (this w) = STATE_BODY ->
  frame_arrived w = false ->
  deadline_passed w = true ->
  runState _receiveFrame w =
  (STATE_DONE, aborted ERROR_TIMEOUT (after_micros (after_available w))).
Proof.
  intros H Hc Ht. unfold _receiveFrame. enter H.
  unfold frame_arrived, avail in Hc. rewrite Hc. cbn.
  unfold deadline_passed, now in Ht. rewrite Ht. reflexivity.
Qed.

Lemma receiveFrame_wait (w : System) :
  state (this w) = STATE_BODY ->
  frame_arrived w = false ->
  deadline_passed w = false ->
  runState _receiveFrame w = (STATE_BODY, after_micros (after_available w)).
Proof.
  intros H Hc Ht. unfold _receiveFrame. enter H.
  unfold frame_arrived, avail in Hc. rewrite Hc. cbn.
  unfold deadline_passed, now in Ht. rewrite Ht.
  cbn. rewrite H. reflexivity.
Qed.

End Paths.

(* ===================================================================== *)
(** ** The tests as inequalities *)

Lemma break_elapsed_true (w : System) :
  break_elapsed w = true <->
  u32_sub (now w) (timeStartBreak (this w)) > u32 (timePerByte (this w) * 2).
Proof.
  unfold break_elapsed. rewrite u32_shl1_double.
  destruct (Z.gtb_spec (u32_sub (now w) (timeStartBreak (this w)))
                       (u32 (timePerByte (this w) * 2)));
    split; intros; (congruence || lia).
Qed.

Lemma break_elapsed_false (w : System) :
  break_elapsed w = false <->
  u32_sub (now w) (timeStartBreak (this w)) <= u32 (timePerByte (this w) * 2).
Proof.
  unfold break_elapsed. rewrite u32_shl1_double.
  destruct (Z.gtb_spec (u32_sub (now w) (timeStartBreak (this w)))
                       (u32 (timePerByte (this w) * 2)));
    split; intros; (congruence || lia).
Qed.

Lemma deadline_passed_true (w : System) :
  deadline_passed w = true <->
  u32_sub (now w) (timeStart (this w)) > timeMax (this w).
Proof.
  unfold deadline_passed.
  destruct (Z.gtb_spec (u32_sub (now w) (timeStart (this w)))
                       (timeMax (this w)));
    split; intros; (congruence || lia).
Qed.

Lemma deadline_passed_false (w : System) :
  deadline_passed w = false <->
  u32_sub (now w) (timeStart (this w)) <= timeMax (this w).
Proof.
  unfold deadline_passed.
  destruct (Z.gtb_spec (u32_sub (now w) (timeStart (this w)))
                       (timeMax (this w)));
    split; intros; (congruence || lia).
Qed.

Lemma frame_arrived_true (w : System) :
  frame_arrived w = true <-> lenRx (this w) <= avail w.
Proof. unfold frame_arrived. rewrite Z.geb_le. reflexivity. Qed.

Lemma frame_arrived_false (w : System) :
  frame_arrived w = false <-> avail w < lenRx (this w).
Proof.
  unfold frame_arrived. rewrite <- Z.ltb_lt, Z.geb_leb, Z.leb_antisym.
  destruct (avail w <? lenRx (this w)); simpl; split; congruence.
Qed.

Lemma frame_read_length (w : System) :
  lenRx (this w) <= avail w ->
  length (frame_read w) = Z.to_nat (lenRx (this w)).
Proof.
  unfold frame_read, avail. intros H. apply firstn_length_le. lia.
Qed.

(** The loop reads every pending byte once, oldest first, and asks
    [available()] before each and once more at the end. *)
Lemma drain_calls_reads (q : list Z) :
  filter is_read (drain_calls q) = map EvRead q.
Proof.
  induction q as [| b q IH]; simpl; [reflexivity | now rewrite IH].
Qed.

(* ===================================================================== *)
(** ** Properties of the step methods *)

Section Properties.

Context {base : LIN_Master_base}.

(** Splits a run of a step method into its paths: the guard fails, or the
    method made progress, timed out or waits. *)
Ltac paths m w :=
  let Hst := fresh "Hst" in
  let Hc := fresh "Hc" in
  let Ht := fresh "Ht" in
  destruct (state_eqb (state (this w)) (expects m)) eqn:Hst;
  [ apply state_eqb_eq in Hst;
    destruct m; cbn [expects run_step] in *;
    [ rewrite (sendBreak_run w Hst)
    | destruct (break_elapsed w) eqn:Hc;
      [ rewrite (sendFrame_body w Hst Hc)
      | destruct (deadline_passed (after_micros w)) eqn:Ht;
        [ rewrite (sendFrame_timeout w Hst Hc Ht)
        | rewrite (sendFrame_wait w Hst Hc Ht) ] ]
    | destruct (frame_arrived w) eqn:Hc;
      [ rewrite (receiveFrame_done w Hst Hc)
      | destruct (deadline_passed w) eqn:Ht;
        [ rewrite (receiveFrame_timeout w Hst Hc Ht)
        | rewrite (receiveFrame_wait w Hst Hc Ht) ] ] ]
  | apply state_eqb_neq in Hst; rewrite (guard_fails m w Hst) ].

(** C4: a step method entered in another state than the one it expects
    (IDLE for [_sendBreak], BREAK for [_sendFrame], BODY for
    [_receiveFrame]) or-s ERROR_STATE into [error], sets [state] to
    STATE_DONE and returns it; it makes no call on the port or the clock and
    leaves every other field of the object as it was. *)
Theorem wrong_state_aborts (m : step) (w : System) :
  state (this w) <> expects m ->
  let r := runState (run_step m) w in
  r = (STATE_DONE, aborted ERROR_STATE w) /\
  state (this (snd r)) = STATE_DONE /\
  error (this (snd r)) = Z.lor (error (this w)) ERROR_STATE /\
  pSerial (snd r) = pSerial w /\
  trace (snd r) = trace w /\
  micros_reads (snd r) = micros_reads w /\
  bufTx (this (snd r)) = bufTx (this w) /\
  bufRx (this (snd r)) = bufRx (this w) /\
  timeStart (this (snd r)) = timeStart (this w) /\
  timeStartBreak (this (snd r)) = timeStartBreak (this w) /\
  timeMax (this (snd r)) = timeMax (this w) /\
  timePerByte (this (snd r)) = timePerByte (this w) /\
  baudrate (this (snd r)) = baudrate (this w) /\
  lenTx (this (snd r)) = lenTx (this w) /\
  lenRx (this (snd r)) = lenRx (this w).
Proof.
  intros H r. subst r. rewrite (guard_fails m w H).
  repeat split.
Qed.

(** C9: on every path, each of the three step methods returns the value
    that [state] holds when the call ends. *)
Theorem returns_stored_state (m : step) (w : System) :
  fst (runState (run_step m) w) = state (this (snd (runState (run_step m) w))).
Proof.
  paths m w; cbn; congruence.
Qed.

(** C7: the error bits only accumulate.  After a call of any step method
    [error] is what it was, or that with ERROR_STATE, with ERROR_TIMEOUT or
    with the result of [_checkFrame] or-ed in; so every bit set before the
    call is set after it. *)
Theorem error_bits_accumulate (m : step) (w : System) :
  let e := error (this w) in
  let e' := error (this (snd (runState (run_step m) w))) in
  (e' = e \/ e' = Z.lor e ERROR_STATE \/ e' = Z.lor e ERROR_TIMEOUT \/
   e' = Z.lor e (_checkFrame (received w))) /\
  keeps_bits e e'.
Proof.
  cbv zeta.
  paths m w; cbn;
    (split;
     [ auto
     | first [ apply keeps_bits_refl | apply keeps_bits_lor ] ]).
Qed.

(** C5: entered in STATE_IDLE, [_sendBreak] makes these calls in this
    order: [flush()], the loop that reads every pending byte, the baud rate
    set to [baudrate >> 1] (half the nominal rate), [write(bufTx[0])] and
    [micros()], whose value goes to [timeStartBreak]; [state] becomes
    STATE_BREAK, which is returned, and nothing else changes in the
    object. *)
Theorem sendBreak_entry_actions (w : System) :
  state (this w) = STATE_IDLE ->
  let r := runState _sendBreak w in
  let half := Z.shiftr (baudrate (this w)) 1 in
  fst r = STATE_BREAK /\
  this (snd r) =
    with_state STATE_BREAK (with_timeStartBreak (now w) (this w)) /\
  state (this (snd r)) = STATE_BREAK /\
  timeStartBreak (this (snd r)) = now w /\
  half = baudrate (this w) / 2 /\
  baud (pSerial (snd r)) = half /\
  rx (pSerial (snd r)) = [] /\
  micros_reads (snd r) = S (micros_reads w) /\
  trace (snd r) =
    trace w ++ EvFlush :: drain_calls (rx (pSerial w)) ++
      [EvUpdateBaudRate half; EvWrite (nth 0 (bufTx (this w)) 0);
       EvMicros (now w)] /\
  filter is_read (trace (snd r)) =
    filter is_read (trace w) ++ map EvRead (rx (pSerial w)).
Proof.
  intros H r half. subst r half. rewrite (sendBreak_run w H). cbn.
  repeat split.
  - apply Z.div2_div.
  - rewrite filter_app. cbn. rewrite filter_app, drain_calls_reads. cbn.
    rewrite app_nil_r. reflexivity.
Qed.

(** C1: entered in STATE_BREAK, [_sendFrame] goes to STATE_BODY exactly
    when [micros() - timeStartBreak], in 32-bit arithmetic, is strictly
    greater than twice [timePerByte]; it then sets the nominal baud rate,
    writes the bytes [bufTx[1..lenTx-1]] and returns STATE_BODY. *)
Theorem sendFrame_body_iff_break_elapsed (w : System) :
  state (this w) = STATE_BREAK ->
  let r := runState _sendFrame w in
  let elapsed := u32_sub (now w) (timeStartBreak (this w)) in
  let two_bytes := u32 (timePerByte (this w) * 2) in
  (state (this (snd r)) = STATE_BODY <-> elapsed > two_bytes) /\
  (0 <= timePerByte (this w) < 2 ^ 31 ->
   two_bytes = timePerByte (this w) * 2) /\
  (elapsed > two_bytes ->
   fst r = STATE_BODY /\
   this (snd r) = with_state STATE_BODY (this w) /\
   baud (pSerial (snd r)) = baudrate (this w) /\
   rx (pSerial (snd r)) = rx (pSerial w) /\
   trace (snd r) =
     trace w ++ [EvMicros (now w); EvUpdateBaudRate (baudrate (this w));
                 EvWriteBuf (frame_rest (this w))] /\
   (1 <= lenTx (this w) <= Z.of_nat (length (bufTx (this w))) ->
    lenTx (this w) <= 2 ^ 32 ->
    Z.of_nat (length (frame_rest (this w))) = lenTx (this w) - 1 /\
    forall i : nat,
      (1 <= i)%nat -> Z.of_nat i < lenTx (this w) ->
      nth (i - 1) (frame_rest (this w)) 0 = nth i (bufTx (this w)) 0)).
Proof.
  intros H r elapsed two_bytes. subst r elapsed two_bytes.
  rewrite <- break_elapsed_true. split; [| split].
  - destruct (break_elapsed w) eqn:Hc.
    + rewrite (sendFrame_body w H Hc). cbn. tauto.
    + destruct (deadline_passed (after_micros w)) eqn:Ht.
      * rewrite (sendFrame_timeout w H Hc Ht). cbn. split; congruence.
      * rewrite (sendFrame_wait w H Hc Ht). cbn. rewrite H. split; congruence.
  - intros Hr. apply u32_small. lia.
  - intros Hc. rewrite (sendFrame_body w H Hc). cbn.
    repeat split.
    + unfold frame_rest. rewrite slice_length.
      * rewrite size_t_of_int_small; lia.
      * rewrite size_t_of_int_small; lia.
    + intros i Hi1 Hi2. unfold frame_rest.
      rewrite slice_nth.
      * f_equal. lia.
      * rewrite size_t_of_int_small; lia.
Qed.

(** C2: entered in STATE_BODY, [_receiveFrame] finishes by reading the
    frame exactly when [available()] reports at least [lenRx] bytes; it then
    takes exactly [lenRx] bytes from the queue into the start of [bufRx],
    or-s the result of [_checkFrame] into [error] and sets [state] to
    STATE_DONE.  With fewer bytes available nothing is read. *)
Theorem receiveFrame_done_iff_frame_arrived (w : System) :
  state (this w) = STATE_BODY ->
  let r := runState _receiveFrame w in
  let n := Z.to_nat (lenRx (this w)) in
  ((state (this (snd r)) = STATE_DONE /\
    trace (snd r) =
      trace w ++ [EvAvailable (avail w); EvReadBytes (frame_read w)])
   <-> lenRx (this w) <= avail w) /\
  (lenRx (this w) <= avail w ->
   fst r = STATE_DONE /\
   this (snd r) =
     with_state STATE_DONE
       (with_error (Z.lor (error (this w)) (_checkFrame (received w)))
                   (received w)) /\
   error (this (snd r)) = Z.lor (error (this w)) (_checkFrame (received w)) /\
   length (frame_read w) = n /\
   bufRx (this (snd r)) = frame_read w ++ skipn n (bufRx (this w)) /\
   (forall i : nat, (i < n)%nat ->
      nth i (bufRx (this (snd r))) 0 = nth i (rx (pSerial w)) 0) /\
   (forall i : nat, (n <= i)%nat ->
      nth i (bufRx (this (snd r))) 0 = nth i (bufRx (this w)) 0) /\
   rx (pSerial (snd r)) = skipn n (rx (pSerial w)) /\
   baud (pSerial (snd r)) = baud (pSerial w) /\
   micros_reads (snd r) = micros_reads w) /\
  (avail w < lenRx (this w) ->
   pSerial (snd r) = pSerial w /\
   bufRx (this (snd r)) = bufRx (this w) /\
   trace (snd r) = trace w ++ [EvAvailable (avail w); EvMicros (now w)]).
Proof.
  intros H r n. subst r n.
  rewrite <- frame_arrived_true, <- frame_arrived_false.
  destruct (frame_arrived w) eqn:Hc.
  - rewrite (receiveFrame_done w H Hc). cbn.
    apply frame_arrived_true in Hc.
    pose proof (frame_read_length w Hc) as Hlen.
    split; [tauto |]. split; [| discriminate].
    intros _. repeat split; try assumption.
    + unfold store. rewrite Hlen. reflexivity.
    + intros i Hi. rewrite store_nth_new by lia.
      unfold frame_read. rewrite nth_firstn.
      destruct (Nat.ltb_spec i (Z.to_nat (lenRx (this w))));
        [reflexivity | lia].
    + intros i Hi. apply store_nth_old. lia.
  - destruct (deadline_passed w) eqn:Ht.
    + rewrite (receiveFrame_timeout w H Hc Ht). cbn.
      split; [| split; [discriminate |]].
      * split; [| discriminate]. intros [_ Htr]. exfalso.
        rewrite <- app_assoc in Htr. apply app_inv_head in Htr.
        discriminate Htr.
      * intros _. rewrite <- app_assoc. repeat split.
    + rewrite (receiveFrame_wait w H Hc Ht). cbn.
      split; [| split; [discriminate |]].
      * split; [| discriminate]. intros [_ Htr]. exfalso.
        rewrite <- app_assoc in Htr. apply app_inv_head in Htr.
        discriminate Htr.
      * intros _. rewrite <- app_assoc. repeat split.
Qed.

(** C3: while [_sendFrame] waits in STATE_BREAK for the break to end, and
    while [_receiveFrame] waits in STATE_BODY for [lenRx] bytes, a reading
    of [micros() - timeStart] above [timeMax] makes the method or
    ERROR_TIMEOUT into [error] and set [state] to STATE_DONE; no byte leaves
    the queue, the buffers stay as they were and nothing is sent. *)
Theorem timeout_forces_done (w : System) :
  (state (this w) = STATE_BREAK ->
   u32_sub (now w) (timeStartBreak (this w))
     <= u32 (timePerByte (this w) * 2) ->
   u32_sub (now (after_micros w)) (timeStart (this w)) > timeMax (this w) ->
   let r := runState _sendFrame w in
   fst r = STATE_DONE /\
   this (snd r) =
     with_state STATE_DONE
       (with_error (Z.lor (error (this w)) ERROR_TIMEOUT) (this w)) /\
   pSerial (snd r) = pSerial w /\
   trace (snd r) =
     trace w ++ [EvMicros (now w); EvMicros (now (after_micros w))]) /\
  (state (this w) = STATE_BODY ->
   avail w < lenRx (this w) ->
   u32_sub (now w) (timeStart (this w)) > timeMax (this w) ->
   let r := runState _receiveFrame w in
   fst r = STATE_DONE /\
   this (snd r) =
     with_state STATE_DONE
       (with_error (Z.lor (error (this w)) ERROR_TIMEOUT) (this w)) /\
   pSerial (snd r) = pSerial w /\
   trace (snd r) = trace w ++ [EvAvailable (avail w); EvMicros (now w)]).
Proof.
  split.
  - intros H Hc Ht r. subst r.
    apply break_elapsed_false in Hc.
    apply (proj2 (deadline_passed_true (after_micros w))) in Ht.
    rewrite (sendFrame_timeout w H Hc Ht). cbn.
    rewrite <- app_assoc. repeat split.
  - intros H Hc Ht r. subst r.
    apply frame_arrived_false in Hc. apply deadline_passed_true in Ht.
    rewrite (receiveFrame_timeout w H Hc Ht). cbn.
    rewrite <- app_assoc. repeat split.
Qed.

(** What a waiting method does with the deadline, for the entry state [st]
    it waits in, the reading [elapsed] of [micros() - timeStart] and the
    object [o'] it leaves: it times out exactly when [elapsed] is strictly
    above [timeMax]. *)
Lemma strict_deadline (st : state_t) (o o' : LIN_Master) (elapsed : Z) :
  st <> STATE_DONE ->
  state o = st ->
  ((elapsed >? timeMax o) = true -> o' = with_state STATE_DONE
       (with_error (Z.lor (error o) ERROR_TIMEOUT) o)) ->
  ((elapsed >? timeMax o) = false -> o' = o) ->
  (state o' = STATE_DONE <-> elapsed > timeMax o) /\
  (elapsed > timeMax o -> error o' = Z.lor (error o) ERROR_TIMEOUT) /\
  (elapsed <= timeMax o -> error o' = error o /\ state o' = st) /\
  (elapsed = timeMax o -> error o' = error o /\ state o' = st) /\
  (ERROR_TIMEOUT <> 0 -> clear_of ERROR_TIMEOUT (error o) ->
   (Z.land (error o') ERROR_TIMEOUT = ERROR_TIMEOUT <-> elapsed > timeMax o)).
Proof.
  intros Hst Ho Hyes Hno.
  destruct (Z.gtb_spec elapsed (timeMax o)) as [Hgt | Hle].
  - rewrite (Hyes eq_refl). cbn.
    repeat split; intros; try lia; try reflexivity.
    rewrite Z.land_lor_distr_l, Z.land_diag.
    match goal with
    | Hc : clear_of _ _ |- _ => unfold clear_of in Hc; rewrite Hc
    end.
    reflexivity.
  - rewrite (Hno eq_refl).
    repeat split; intros; try lia; try congruence.
Qed.

(** C6: both waiting states use the same strict comparison.  In
    [_sendFrame] waiting in STATE_BREAK and in [_receiveFrame] waiting in
    STATE_BODY, the method times out (ERROR_TIMEOUT or-ed into [error],
    [state] set to STATE_DONE) exactly when [micros() - timeStart] is
    strictly greater than [timeMax]; with the two equal, [error] and
    [state] stay as they were. *)
Theorem timeout_is_strict (w : System) :
  (state (this w) = STATE_BREAK ->
   u32_sub (now w) (timeStartBreak (this w))
     <= u32 (timePerByte (this w) * 2) ->
   let o' := this (snd (runState _sendFrame w)) in
   let elapsed := u32_sub (now (after_micros w)) (timeStart (this w)) in
   (state o' = STATE_DONE <-> elapsed > timeMax (this w)) /\
   (elapsed > timeMax (this w) ->
    error o' = Z.lor (error (this w)) ERROR_TIMEOUT) /\
   (elapsed <= timeMax (this w) ->
    error o' = error (this w) /\ state o' = STATE_BREAK) /\
   (elapsed = timeMax (this w) ->
    error o' = error (this w) /\ state o' = STATE_BREAK) /\
   (ERROR_TIMEOUT <> 0 -> clear_of ERROR_TIMEOUT (error (this w)) ->
    (Z.land (error o') ERROR_TIMEOUT = ERROR_TIMEOUT
     <-> elapsed > timeMax (this w)))) /\
  (state (this w) = STATE_BODY ->
   avail w < lenRx (this w) ->
   let o' := this (snd (runState _receiveFrame w)) in
   let elapsed := u32_sub (now w) (timeStart (this w)) in
   (state o' = STATE_DONE <-> elapsed > timeMax (this w)) /\
   (elapsed > timeMax (this w) ->
    error o' = Z.lor (error (this w)) ERROR_TIMEOUT) /\
   (elapsed <= timeMax (this w) ->
    error o' = error (this w) /\ state o' = STATE_BODY) /\
   (elapsed = timeMax (this w) ->
    error o' = error (this w) /\ state o' = STATE_BODY) /\
   (ERROR_TIMEOUT <> 0 -> clear_of ERROR_TIMEOUT (error (this w)) ->
    (Z.land (error o') ERROR_TIMEOUT = ERROR_TIMEOUT
     <-> elapsed > timeMax (this w)))).
Proof.
  split.
  - intros H Hc o' elapsed. subst o' elapsed.
    apply break_elapsed_false in Hc.
    apply (strict_deadline STATE_BREAK); [discriminate | exact H | |].
    + intros Ht. rewrite (sendFrame_timeout w H Hc Ht). reflexivity.
    + intros Ht. rewrite (sendFrame_wait w H Hc Ht). reflexivity.
  - intros H Hc o' elapsed. subst o' elapsed.
    apply frame_arrived_false in Hc.
    apply (strict_deadline STATE_BODY); [discriminate | exact H | |].
    + intros Ht. rewrite (receiveFrame_timeout w H Hc Ht). reflexivity.
    + intros Ht. rewrite (receiveFrame_wait w H Hc Ht). reflexivity.
Qed.

(** C8: waiting has no effect.  When [_sendFrame] in STATE_BREAK finds
    neither the break over nor the deadline passed, and when
    [_receiveFrame] in STATE_BODY finds fewer than [lenRx] bytes and the
    deadline not passed, the object (with [state] and [error]) and the port
    are as on entry, the entry state is returned, and the only calls made
    are [micros()] and [available()]. *)
Theorem waiting_changes_nothing (w : System) :
  (state (this w) = STATE_BREAK ->
   u32_sub (now w) (timeStartBreak (this w))
     <= u32 (timePerByte (this w) * 2) ->
   u32_sub (now (after_micros w)) (timeStart (this w)) <= timeMax (this w) ->
   let r := runState _sendFrame w in
   fst r = STATE_BREAK /\
   this (snd r) = this w /\
   pSerial (snd r) = pSerial w /\
   trace (snd r) =
     trace w ++ [EvMicros (now w); EvMicros (now (after_micros w))]) /\
  (state (this w) = STATE_BODY ->
   avail w < lenRx (this w) ->
   u32_sub (now w) (timeStart (this w)) <= timeMax (this w) ->
   let r := runState _receiveFrame w in
   fst r = STATE_BODY /\
   this (snd r) = this w /\
   pSerial (snd r) = pSerial w /\
   trace (snd r) = trace w ++ [EvAvailable (avail w); EvMicros (now w)]).
Proof.
  split.
  - intros H Hc Ht r. subst r.
    apply break_elapsed_false in Hc.
    apply (proj2 (deadline_passed_false (after_micros w))) in Ht.
    rewrite (sendFrame_wait w H Hc Ht). cbn.
    rewrite <- app_assoc. repeat split.
  - intros H Hc Ht r. subst r.
    apply frame_arrived_false in Hc. apply deadline_passed_false in Ht.
    rewrite (receiveFrame_wait w H Hc Ht). cbn.
    rewrite <- app_assoc. repeat split.
Qed.

(** C10: progress comes before the deadline.  [_sendFrame] that finds the
    break over goes to STATE_BODY with [error] untouched after a single
    reading of the clock, and [_receiveFrame] that finds [lenRx] bytes goes
    to STATE_DONE without reading the clock, adding to [error] only what
    [_checkFrame] returns; neither looks at [timeMax], so this holds also
    when [micros() - timeStart] is above it. *)
Theorem progress_before_timeout (w : System) :
  (state (this w) = STATE_BREAK ->
   u32_sub (now w) (timeStartBreak (this w))
     > u32 (timePerByte (this w) * 2) ->
   let r := runState _sendFrame w in
   fst r = STATE_BODY /\
   state (this (snd r)) = STATE_BODY /\
   error (this (snd r)) = error (this w) /\
   micros_reads (snd r) = S (micros_reads w) /\
   (clear_of ERROR_TIMEOUT (error (this w)) ->
    clear_of ERROR_TIMEOUT (error (this (snd r))))) /\
  (state (this w) = STATE_BODY ->
   lenRx (this w) <= avail w ->
   let r := runState _receiveFrame w in
   fst r = STATE_DONE /\
   state (this (snd r)) = STATE_DONE /\
   error (this (snd r)) = Z.lor (error (this w)) (_checkFrame (received w)) /\
   micros_reads (snd r) = micros_reads w /\
   (clear_of ERROR_TIMEOUT (error (this w)) ->
    clear_of ERROR_TIMEOUT (_checkFrame (received w)) ->
    clear_of ERROR_TIMEOUT (error (this (snd r))))).
Proof.
  split.
  - intros H Hc r. subst r.
    apply break_elapsed_true in Hc.
    rewrite (sendFrame_body w H Hc). cbn.
    repeat split; auto.
  - intros H Hc r. subst r.
    apply frame_arrived_true in Hc.
    rewrite (receiveFrame_done w H Hc). cbn.
    repeat split; auto using clear_of_lor.
Qed.

End Properties.

(* ===================================================================== *)
(** ** The theorems at concrete systems *)

Ltac by_computation :=
  vm_compute;
  first [ reflexivity | discriminate
        | split; first [ reflexivity | discriminate ] ].

(** [_sendFrame] called on an idle object. *)
Lemma wrong_state_aborts_witness :
  state (this sys_idle) <> expects SendFrame /\
  runState (run_step (base := sample_base) SendFrame) sys_idle =
  (STATE_DONE, sample_system STATE_DONE 1 [17; 34] (clock_at 1100)).
Proof.
  assert (H : state (this sys_idle) <> expects SendFrame) by discriminate.
  split; [exact H |].
  exact (proj1 (wrong_state_aborts (base := sample_base) SendFrame sys_idle H)).
Defined.

(** A timeout in BODY keeps the echo bit that was set before. *)
Lemma error_bits_accumulate_witness :
  Z.testbit (error (this sys_body_timeout)) 1 = true /\
  error (this (snd (runState (run_step (base := sample_base) ReceiveFrame)
                             sys_body_timeout))) = 6 /\
  Z.testbit
    (error (this (snd (runState (run_step (base := sample_base) ReceiveFrame)
                                sys_body_timeout)))) 1 = true.
Proof.
  split; [reflexivity |]. split; [reflexivity |].
  apply (proj2 (error_bits_accumulate (base := sample_base) ReceiveFrame
                  sys_body_timeout)).
  reflexivity.
Defined.

(** The break is sent after the two stray bytes were read. *)
Lemma sendBreak_entry_actions_witness :
  state (this sys_idle) = STATE_IDLE /\
  fst (runState (_sendBreak (base := sample_base)) sys_idle) = STATE_BREAK /\
  timeStartBreak (this (snd (runState (_sendBreak (base := sample_base))
                                      sys_idle))) = 1100 /\
  trace (snd (runState (_sendBreak (base := sample_base)) sys_idle)) =
  [EvFlush; EvAvailable 2; EvRead 17; EvAvailable 1; EvRead 34; EvAvailable 0;
   EvUpdateBaudRate 9600; EvWrite 0; EvMicros 1100].
Proof.
  assert (H : state (this sys_idle) = STATE_IDLE) by reflexivity.
  pose proof (sendBreak_entry_actions (base := sample_base) sys_idle H) as T.
  cbv zeta in T.
  destruct T as (T1 & _ & _ & T4 & _ & _ & _ & _ & T9 & _).
  split; [exact H |]. split; [exact T1 |]. split; [exact T4 |]. exact T9.
Defined.

(** 1100 microseconds after the break, SYNC and the identifier are sent. *)
Lemma sendFrame_body_iff_break_elapsed_witness :
  state (this sys_break_over) = STATE_BREAK /\
  u32_sub (now sys_break_over) (timeStartBreak (this sys_break_over))
    > u32 (timePerByte (this sys_break_over) * 2) /\
  fst (runState (_sendFrame (base := sample_base)) sys_break_over)
    = STATE_BODY /\
  trace (snd (runState (_sendFrame (base := sample_base)) sys_break_over)) =
    [EvMicros 2200; EvUpdateBaudRate 19200; EvWriteBuf [85; 80]] /\
  Z.of_nat (length (frame_rest (this sys_break_over))) = 2 /\
  u32 (timePerByte (this sys_break_over) * 2) = 1040.
Proof.
  assert (H : state (this sys_break_over) = STATE_BREAK) by reflexivity.
  assert (Hc : u32_sub (now sys_break_over)
                       (timeStartBreak (this sys_break_over))
               > u32 (timePerByte (this sys_break_over) * 2))
    by reflexivity.
  assert (Hlen : 1 <= lenTx (this sys_break_over)
                 <= Z.of_nat (length (bufTx (this sys_break_over))))
    by by_computation.
  assert (Hfit : lenTx (this sys_break_over) <= 2 ^ 32) by by_computation.
  pose proof (sendFrame_body_iff_break_elapsed (base := sample_base)
                sys_break_over H) as T.
  assert (Hr : 0 <= timePerByte (this sys_break_over) < 2 ^ 31)
    by by_computation.
  cbv zeta in T. destruct T as (_ & T0 & T).
  destruct (T Hc) as (T1 & _ & _ & _ & T5 & T6).
  destruct (T6 Hlen Hfit) as [T7 _].
  split; [exact H |]. split; [exact Hc |]. split; [exact T1 |].
  split; [exact T5 |]. split; [exact T7 | exact (T0 Hr)].
Defined.

(** Seven bytes are waiting, six are read, the header echo matches. *)
Lemma receiveFrame_done_iff_frame_arrived_witness :
  state (this sys_body_frame) = STATE_BODY /\
  lenRx (this sys_body_frame) <= avail sys_body_frame /\
  fst (runState (_receiveFrame (base := sample_base)) sys_body_frame)
    = STATE_DONE /\
  error (this (snd (runState (_receiveFrame (base := sample_base))
                             sys_body_frame))) = 0 /\
  bufRx (this (snd (runState (_receiveFrame (base := sample_base))
                             sys_body_frame)))
    = [0; 85; 80; 1; 2; 252; 0; 0; 0; 0; 0; 0] /\
  rx (pSerial (snd (runState (_receiveFrame (base := sample_base))
                             sys_body_frame))) = [99].
Proof.
  assert (H : state (this sys_body_frame) = STATE_BODY) by reflexivity.
  assert (Hc : lenRx (this sys_body_frame) <= avail sys_body_frame)
    by by_computation.
  pose proof (receiveFrame_done_iff_frame_arrived (base := sample_base)
                sys_body_frame H) as T.
  cbv zeta in T. destruct T as (_ & T & _).
  destruct (T Hc) as (T1 & _ & T3 & _ & T5 & _ & _ & T7 & _).
  split; [exact H |]. split; [exact Hc |]. split; [exact T1 |].
  split; [exact T3 |]. split; [exact T5 | exact T7].
Defined.

(** Both waiting methods time out 6000 microseconds after the start. *)
Lemma timeout_forces_done_witness :
  (state (this sys_break_timeout) = STATE_BREAK /\
   u32_sub (now sys_break_timeout) (timeStartBreak (this sys_break_timeout))
     <= u32 (timePerByte (this sys_break_timeout) * 2) /\
   u32_sub (now (after_micros sys_break_timeout))
           (timeStart (this sys_break_timeout))
     > timeMax (this sys_break_timeout) /\
   fst (runState (_sendFrame (base := sample_base)) sys_break_timeout)
     = STATE_DONE /\
   this (snd (runState (_sendFrame (base := sample_base)) sys_break_timeout))
     = sample_object STATE_DONE 4 /\
   pSerial (snd (runState (_sendFrame (base := sample_base))
                          sys_break_timeout))
     = mkSerial [] 19200 /\
   trace (snd (runState (_sendFrame (base := sample_base)) sys_break_timeout))
     = [EvMicros 1500; EvMicros 7000]) /\
  (state (this sys_body_timeout) = STATE_BODY /\
   avail sys_body_timeout < lenRx (this sys_body_timeout) /\
   u32_sub (now sys_body_timeout) (timeStart (this sys_body_timeout))
     > timeMax (this sys_body_timeout) /\
   fst (runState (_receiveFrame (base := sample_base)) sys_body_timeout)
     = STATE_DONE /\
   this (snd (runState (_receiveFrame (base := sample_base))
                       sys_body_timeout))
     = sample_object STATE_DONE 6 /\
   pSerial (snd (runState (_receiveFrame (base := sample_base))
                          sys_body_timeout))
     = mkSerial [0; 85] 19200 /\
   trace (snd (runState (_receiveFrame (base := sample_base))
                        sys_body_timeout))
     = [EvAvailable 2; EvMicros 7000]).
Proof.
  assert (H1 : state (this sys_break_timeout) = STATE_BREAK) by reflexivity.
  assert (C1 : u32_sub (now sys_break_timeout)
                       (timeStartBreak (this sys_break_timeout))
               <= u32 (timePerByte (this sys_break_timeout) * 2))
    by by_computation.
  assert (D1 : u32_sub (now (after_micros sys_break_timeout))
                       (timeStart (this sys_break_timeout))
               > timeMax (this sys_break_timeout)) by reflexivity.
  assert (H2 : state (this sys_body_timeout) = STATE_BODY) by reflexivity.
  assert (C2 : avail sys_body_timeout < lenRx (this sys_body_timeout))
    by reflexivity.
  assert (D2 : u32_sub (now sys_body_timeout)
                       (timeStart (this sys_body_timeout))
               > timeMax (this sys_body_timeout)) by reflexivity.
  split.
  - split; [exact H1 |]. split; [exact C1 |]. split; [exact D1 |].
    exact (proj1 (timeout_forces_done (base := sample_base)
                    sys_break_timeout) H1 C1 D1).
  - split; [exact H2 |]. split; [exact C2 |]. split; [exact D2 |].
    exact (proj2 (timeout_forces_done (base := sample_base)
                    sys_body_timeout) H2 C2 D2).
Defined.

(** At exactly [timeMax] after the start neither method times out; one
    microsecond later is covered by the systems that time out. *)
Lemma timeout_is_strict_witness :
  (state (this sys_break_boundary) = STATE_BREAK /\
   u32_sub (now (after_micros sys_break_boundary))
           (timeStart (this sys_break_boundary))
     = timeMax (this sys_break_boundary) /\
   error (this (snd (runState (_sendFrame (base := sample_base))
                              sys_break_boundary))) = 0 /\
   state (this (snd (runState (_sendFrame (base := sample_base))
                              sys_break_boundary))) = STATE_BREAK) /\
  (state (this sys_body_boundary) = STATE_BODY /\
   u32_sub (now sys_body_boundary) (timeStart (this sys_body_boundary))
     = timeMax (this sys_body_boundary) /\
   error (this (snd (runState (_receiveFrame (base := sample_base))
                              sys_body_boundary))) = 0 /\
   state (this (snd (runState (_receiveFrame (base := sample_base))
                              sys_body_boundary))) = STATE_BODY) /\
  (u32_sub (now sys_body_timeout) (timeStart (this sys_body_timeout))
     > timeMax (this sys_body_timeout) /\
   error (this (snd (runState (_receiveFrame (base := sample_base))
                              sys_body_timeout))) = 6).
Proof.
  assert (H1 : state (this sys_break_boundary) = STATE_BREAK) by reflexivity.
  assert (C1 : u32_sub (now sys_break_boundary)
                       (timeStartBreak (this sys_break_boundary))
               <= u32 (timePerByte (this sys_break_boundary) * 2))
    by by_computation.
  assert (E1 : u32_sub (now (after_micros sys_break_boundary))
                       (timeStart (this sys_break_boundary))
               = timeMax (this sys_break_boundary)) by reflexivity.
  assert (H2 : state (this sys_body_boundary) = STATE_BODY) by reflexivity.
  assert (C2 : avail sys_body_boundary < lenRx (this sys_body_boundary))
    by reflexivity.
  assert (E2 : u32_sub (now sys_body_boundary)
                       (timeStart (this sys_body_boundary))
               = timeMax (this sys_body_boundary)) by reflexivity.
  assert (H3 : state (this sys_body_timeout) = STATE_BODY) by reflexivity.
  assert (C3 : avail sys_body_timeout < lenRx (this sys_body_timeout))
    by reflexivity.
  assert (D3 : u32_sub (now sys_body_timeout)
                       (timeStart (this sys_body_timeout))
               > timeMax (this sys_body_timeout)) by reflexivity.
  pose proof (proj1 (timeout_is_strict (base := sample_base)
                       sys_break_boundary) H1 C1) as T1.
  pose proof (proj2 (timeout_is_strict (base := sample_base)
                       sys_body_boundary) H2 C2) as T2.
  pose proof (proj2 (timeout_is_strict (base := sample_base)
                       sys_body_timeout) H3 C3) as T3.
  cbv zeta in T1, T2, T3.
  destruct T1 as (_ & _ & _ & T1 & _).
  destruct T2 as (_ & _ & _ & T2 & _).
  destruct T3 as (_ & T3 & _).
  split; [| split].
  - split; [exact H1 |]. split; [exact E1 |]. exact (T1 E1).
  - split; [exact H2 |]. split; [exact E2 |]. exact (T2 E2).
  - split; [exact D3 |]. exact (T3 D3).
Defined.

(** Both methods wait 2000 microseconds after the start. *)
Lemma waiting_changes_nothing_witness :
  (state (this sys_break_waiting) = STATE_BREAK /\
   u32_sub (now sys_break_waiting) (timeStartBreak (this sys_break_waiting))
     <= u32 (timePerByte (this sys_break_waiting) * 2) /\
   u32_sub (now (after_micros sys_break_waiting))
           (timeStart (this sys_break_waiting))
     <= timeMax (this sys_break_waiting) /\
   fst (runState (_sendFrame (base := sample_base)) sys_break_waiting)
     = STATE_BREAK /\
   this (snd (runState (_sendFrame (base := sample_base)) sys_break_waiting))
     = sample_object STATE_BREAK 0 /\
   pSerial (snd (runState (_sendFrame (base := sample_base))
                          sys_break_waiting))
     = mkSerial [] 19200 /\
   trace (snd (runState (_sendFrame (base := sample_base)) sys_break_waiting))
     = [EvMicros 1500; EvMicros 3000]) /\
  (state (this sys_body_waiting) = STATE_BODY /\
   avail sys_body_waiting < lenRx (this sys_body_waiting) /\
   u32_sub (now sys_body_waiting) (timeStart (this sys_body_waiting))
     <= timeMax (this sys_body_waiting) /\
   fst (runState (_receiveFrame (base := sample_base)) sys_body_waiting)
     = STATE_BODY /\
   this (snd (runState (_receiveFrame (base := sample_base))
                       sys_body_waiting))
     = sample_object STATE_BODY 0 /\
   pSerial (snd (runState (_receiveFrame (base := sample_base))
                          sys_body_waiting))
     = mkSerial [0; 85] 19200 /\
   trace (snd (runState (_receiveFrame (base := sample_base))
                        sys_body_waiting))
     = [EvAvailable 2; EvMicros 3000]).
Proof.
  assert (H1 : state (this sys_break_waiting) = STATE_BREAK) by reflexivity.
  assert (C1 : u32_sub (now sys_break_waiting)
                       (timeStartBreak (this sys_break_waiting))
               <= u32 (timePerByte (this sys_break_waiting) * 2))
    by by_computation.
  assert (D1 : u32_sub (now (after_micros sys_break_waiting))
                       (timeStart (this sys_break_waiting))
               <= timeMax (this sys_break_waiting)) by by_computation.
  assert (H2 : state (this sys_body_waiting) = STATE_BODY) by reflexivity.
  assert (C2 : avail sys_body_waiting < lenRx (this sys_body_waiting))
    by reflexivity.
  assert (D2 : u32_sub (now sys_body_waiting)
                       (timeStart (this sys_body_waiting))
               <= timeMax (this sys_body_waiting)) by by_computation.
  split.
  - split; [exact H1 |]. split; [exact C1 |]. split; [exact D1 |].
    exact (proj1 (waiting_changes_nothing (base := sample_base)
                    sys_break_waiting) H1 C1 D1).
  - split; [exact H2 |]. split; [exact C2 |]. split; [exact D2 |].
    exact (proj2 (waiting_changes_nothing (base := sample_base)
                    sys_body_waiting) H2 C2 D2).
Defined.

(** With the deadline passed 3000 microseconds ago, the break that is over
    and the frame that has arrived are still taken. *)
Lemma progress_before_timeout_witness :
  (state (this sys_break_over_late) = STATE_BREAK /\
   u32_sub (now sys_break_over_late)
           (timeStartBreak (this sys_break_over_late))
     > u32 (timePerByte (this sys_break_over_late) * 2) /\
   u32_sub (now sys_break_over_late) (timeStart (this sys_break_over_late))
     > timeMax (this sys_break_over_late) /\
   fst (runState (_sendFrame (base := sample_base)) sys_break_over_late)
     = STATE_BODY /\
   error (this (snd (runState (_sendFrame (base := sample_base))
                              sys_break_over_late))) = 0) /\
  (state (this sys_body_frame_late) = STATE_BODY /\
   lenRx (this sys_body_frame_late) <= avail sys_body_frame_late /\
   u32_sub (now sys_body_frame_late) (timeStart (this sys_body_frame_late))
     > timeMax (this sys_body_frame_late) /\
   fst (runState (_receiveFrame (base := sample_base)) sys_body_frame_late)
     = STATE_DONE /\
   error (this (snd (runState (_receiveFrame (base := sample_base))
                              sys_body_frame_late))) = 0).
Proof.
  assert (H1 : state (this sys_break_over_late) = STATE_BREAK)
    by reflexivity.
  assert (C1 : u32_sub (now sys_break_over_late)
                       (timeStartBreak (this sys_break_over_late))
               > u32 (timePerByte (this sys_break_over_late) * 2))
    by reflexivity.
  assert (D1 : u32_sub (now sys_break_over_late)
                       (timeStart (this sys_break_over_late))
               > timeMax (this sys_break_over_late)) by reflexivity.
  assert (H2 : state (this sys_body_frame_late) = STATE_BODY)
    by reflexivity.
  assert (C2 : lenRx (this sys_body_frame_late) <= avail sys_body_frame_late)
    by by_computation.
  assert (D2 : u32_sub (now sys_body_frame_late)
                       (timeStart (this sys_body_frame_late))
               > timeMax (this sys_body_frame_late)) by reflexivity.
  pose proof (proj1 (progress_before_timeout (base := sample_base)
                       sys_break_over_late) H1 C1) as T1.
  pose proof (proj2 (progress_before_timeout (base := sample_base)
                       sys_body_frame_late) H2 C2) as T2.
  cbv zeta in T1, T2.
  destruct T1 as (T1a & _ & T1b & _).
  destruct T2 as (T2a & _ & T2b & _).
  split.
  - split; [exact H1 |]. split; [exact C1 |]. split; [exact D1 |].
    split; [exact T1a | exact T1b].
  - split; [exact H2 |]. split; [exact C2 |]. split; [exact D2 |].
    split; [exact T2a | exact T2b].
Defined.

(* ===================================================================== *)
(** ** Further properties: frames, order of the states, repeated calls *)

Lemma run_bind {A B : Type} (c : M A) (f : A -> M B) (w : System) :
  runState (bind c f) w =
  runState (f (fst (runState c w))) (snd (runState c w)).
Proof. cbn. destruct (runState c w); reflexivity. Qed.

Lemma written_app (a b : list event) :
  written (a ++ b) = written a ++ written b.
Proof.
  induction a as [| e a IH]; [reflexivity |].
  destruct e; cbn; rewrite IH; try reflexivity.
  rewrite app_assoc. reflexivity.
Qed.

Lemma written_drain_calls (q : list Z) : written (drain_calls q) = [].
Proof. induction q as [| b q IH]; [reflexivity | exact IH]. Qed.

(** The break byte and the rest of the frame make up the frame. *)
Lemma frame_in_two_writes (o : LIN_Master) :
  1 <= lenTx o <= Z.of_nat (length (bufTx o)) ->
  lenTx o <= 2 ^ 32 ->
  nth 0 (bufTx o) 0 :: frame_rest o = firstn (Z.to_nat (lenTx o)) (bufTx o).
Proof.
  intros Hlen Hfit. unfold frame_rest, slice.
  rewrite size_t_of_int_small by lia.
  destruct (bufTx o) as [| b tx]; cbn [length] in Hlen; [lia |].
  replace (Z.to_nat (lenTx o)) with (S (Z.to_nat (lenTx o - 1))) by lia.
  reflexivity.
Qed.

Lemma lor_twice (e bits : Z) : Z.lor (Z.lor e bits) bits = Z.lor e bits.
Proof. rewrite <- Z.lor_assoc, Z.lor_diag. reflexivity. Qed.

(** A difference of clock readings is the time that has passed, whether
    or not the clock has wrapped in between. *)
Lemma u32_sub_elapsed (start d : Z) :
  0 <= d < 2 ^ 32 -> u32_sub (u32 (start + d)) start = d.
Proof.
  intros Hd. unfold u32_sub, u32.
  rewrite Zminus_mod_idemp_l.
  replace (start + d - start) with d by lia.
  apply Z.mod_small. exact Hd.
Qed.

Lemma u32_sub_below (a b : Z) : u32_sub a b <= 2 ^ 32 - 1.
Proof.
  unfold u32_sub, u32.
  pose proof (Z.mod_pos_bound (a - b) (2 ^ 32)) as H. lia.
Qed.

Section Further.

Context {base : LIN_Master_base}.

Ltac each_path m w :=
  let Hst := fresh "Hst" in
  let Hc := fresh "Hc" in
  let Ht := fresh "Ht" in
  destruct (state_eqb (state (this w)) (expects m)) eqn:Hst;
  [ apply state_eqb_eq in Hst;
    destruct m; cbn [expects run_step] in *;
    [ rewrite (sendBreak_run w Hst)
    | destruct (break_elapsed w) eqn:Hc;
      [ rewrite (sendFrame_body w Hst Hc)
      | destruct (deadline_passed (after_micros w)) eqn:Ht;
        [ rewrite (sendFrame_timeout w Hst Hc Ht)
        | rewrite (sendFrame_wait w Hst Hc Ht) ] ]
    | destruct (frame_arrived w) eqn:Hc;
      [ rewrite (receiveFrame_done w Hst Hc)
      | destruct (deadline_passed w) eqn:Ht;
        [ rewrite (receiveFrame_timeout w Hst Hc Ht)
        | rewrite (receiveFrame_wait w Hst Hc Ht) ] ] ]
  | apply state_eqb_neq in Hst; rewrite (guard_fails m w Hst) ].

(** X1: no step method, on any path, changes what describes the frame and
    its timing: the send buffer and its length, the expected length, the
    baud rate, the time per byte, the start of the transaction and its
    deadline. *)
Theorem configuration_is_read_only (m : step) (w : System) :
  let o' := this (snd (runState (run_step m) w)) in
  bufTx o' = bufTx (this w) /\
  lenTx o' = lenTx (this w) /\
  lenRx o' = lenRx (this w) /\
  baudrate o' = baudrate (this w) /\
  timePerByte o' = timePerByte (this w) /\
  timeStart o' = timeStart (this w) /\
  timeMax o' = timeMax (this w).
Proof.
  cbv zeta. each_path m w; cbn; repeat split.
Qed.

(** X2: the state only moves forward.  After a call of any step method
    the state is not before the one on entry, it is never IDLE, and it is
    at most one state further unless it is DONE. *)
Theorem state_only_advances (m : step) (w : System) :
  let s := state (this w) in
  let s' := state (this (snd (runState (run_step m) w))) in
  (rank s <= rank s')%nat /\
  (1 <= rank s')%nat /\
  (s' = STATE_DONE \/ (rank s' <= rank s + 1)%nat).
Proof.
  cbv zeta. each_path m w; cbn; try rewrite Hst; cbn;
    try (repeat split; solve [lia | auto with arith]).
  destruct (state (this w)); cbn; repeat split; auto with arith.
Qed.

(** X3: a call that was rejected for its state ends the transaction for
    good: after it, a call of any step method returns STATE_DONE and
    changes nothing at all, ERROR_STATE being set already. *)
Theorem rejected_call_is_final (m1 m2 : step) (w : System) :
  state (this w) <> expects m1 ->
  let w1 := snd (runState (run_step m1) w) in
  runState (run_step m2) w1 = (STATE_DONE, w1).
Proof.
  intros H w1. subst w1. rewrite (guard_fails m1 w H). cbn [snd].
  rewrite guard_fails by (destruct m2; discriminate).
  unfold aborted, with_this, with_state, with_error. cbn.
  rewrite lor_twice. reflexivity.
Qed.

(** X4: a step makes its move once.  When a call of a step method has
    changed the state, the next call of the same method is rejected: it
    or-s ERROR_STATE into [error] and sets STATE_DONE, with no call on the
    port or the clock. *)
Theorem step_progress_is_one_shot (m : step) (w : System) :
  state (this (snd (runState (run_step m) w))) <> state (this w) ->
  let w1 := snd (runState (run_step m) w) in
  runState (run_step m) w1 = (STATE_DONE, aborted ERROR_STATE w1).
Proof.
  intros H w1. subst w1. apply guard_fails. revert H.
  each_path m w; cbn; intros H; try discriminate; try congruence;
    destruct m; discriminate.
Qed.

(** X7: nothing is received before the frame is out.  [_sendBreak] and
    [_sendFrame] leave [bufRx] as it is on every path, [_sendFrame] also
    the receive queue; and whatever a step method leaves in the queue is
    the rear part of what it found there. *)
Theorem receive_side_untouched_until_body (w : System) :
  bufRx (this (snd (runState _sendBreak w))) = bufRx (this w) /\
  bufRx (this (snd (runState _sendFrame w))) = bufRx (this w) /\
  rx (pSerial (snd (runState _sendFrame w))) = rx (pSerial w) /\
  forall m : step,
    exists taken : list Z,
      rx (pSerial w) = taken ++ rx (pSerial (snd (runState (run_step m) w))).
Proof.
  split; [| split; [| split]].
  - change _sendBreak with (run_step SendBreak).
    destruct (state_eqb (state (this w)) STATE_IDLE) eqn:Hst.
    + apply state_eqb_eq in Hst. cbn [run_step].
      rewrite (sendBreak_run w Hst). reflexivity.
    + apply state_eqb_neq in Hst.
      rewrite (guard_fails SendBreak w Hst). reflexivity.
  - change _sendFrame with (run_step SendFrame).
    pose (m := SendFrame). change SendFrame with m.
    assert (Hm : m = SendFrame) by reflexivity.
    each_path m w; try discriminate Hm; reflexivity.
  - change _sendFrame with (run_step SendFrame).
    pose (m := SendFrame). change SendFrame with m.
    assert (Hm : m = SendFrame) by reflexivity.
    each_path m w; try discriminate Hm; reflexivity.
  - intros m. each_path m w; cbn.
    + exists (rx (pSerial w)). rewrite app_nil_r. reflexivity.
    + exists []. reflexivity.
    + exists []. reflexivity.
    + exists []. reflexivity.
    + exists (firstn (Z.to_nat (lenRx (this w))) (rx (pSerial w))).
      rewrite firstn_skipn. reflexivity.
    + exists []. reflexivity.
    + exists []. reflexivity.
    + exists []. reflexivity.
Qed.

Lemma reading_0 (w : System) : reading w 0 = now w.
Proof. unfold reading, now. rewrite Nat.add_0_r. reflexivity. Qed.

(** X5: the break and the rest of the frame together send the frame once.
    After [_sendBreak] from IDLE and [_sendFrame] at a reading of the clock
    more than two byte times later, the bytes written are exactly
    [bufTx[0..lenTx-1]], in order, the port is back at the nominal baud
    rate and the queue is empty. *)
Theorem break_then_frame_sends_whole_frame (w : System) :
  state (this w) = STATE_IDLE ->
  1 <= lenTx (this w) <= Z.of_nat (length (bufTx (this w))) ->
  lenTx (this w) <= 2 ^ 32 ->
  u32_sub (reading w 1) (reading w 0) > u32 (timePerByte (this w) * 2) ->
  let r := runState (_sendBreak ;; _sendFrame) w in
  fst r = STATE_BODY /\
  written (trace (snd r)) =
    written (trace w) ++ firstn (Z.to_nat (lenTx (this w))) (bufTx (this w)) /\
  baud (pSerial (snd r)) = baudrate (this w) /\
  rx (pSerial (snd r)) = [] /\
  timeStartBreak (this (snd r)) = reading w 0 /\
  micros_reads (snd r) = (micros_reads w + 2)%nat.
Proof.
  intros H Hlen Hfit Hc r. subst r.
  rewrite run_bind, (sendBreak_run w H). cbn [fst snd].
  match goal with |- context [runState _sendFrame ?w1] => set (w1' := w1) end.
  assert (H1 : state (this w1') = STATE_BREAK) by reflexivity.
  assert (Hc1 : break_elapsed w1' = true).
  { apply break_elapsed_true. rewrite reading_0 in Hc.
    unfold reading in Hc. rewrite Nat.add_1_r in Hc. exact Hc. }
  rewrite (sendFrame_body w1' H1 Hc1). subst w1'. cbn.
  repeat split.
  - rewrite !written_app. cbn. rewrite written_app, written_drain_calls.
    cbn. rewrite <- (frame_in_two_writes (this w) Hlen Hfit).
    rewrite app_nil_r, <- app_assoc. reflexivity.
  - symmetry. apply reading_0.
  - lia.
Qed.

Lemma arrive_run (bytes : list Z) (w : System) :
  runState (arrive bytes) w =
  (tt, mkSystem (this w)
                (mkSerial (rx (pSerial w) ++ bytes) (baud (pSerial w)))
                (micros_src w) (micros_reads w) (trace w)).
Proof. reflexivity. Qed.

(** X6: a transaction receives what arrived after its break.  When the
    break is followed by the frame and at least [lenRx] bytes have arrived
    by the time of [_receiveFrame], the transaction ends in STATE_DONE with
    the first [lenRx] of these bytes in [bufRx], the clock read only twice;
    bytes that were waiting before the break never reach [bufRx].  If what
    arrives is the echo of the frame and as much is expected as was sent,
    [bufRx] starts with the bytes of [bufTx] and the queue is empty. *)
Theorem transaction_reads_what_arrived (a1 a2 : list Z) (w : System) :
  state (this w) = STATE_IDLE ->
  u32_sub (reading w 1) (reading w 0) > u32 (timePerByte (this w) * 2) ->
  lenRx (this w) <= Z.of_nat (length (a1 ++ a2)) ->
  let r := runState (transaction a1 a2) w in
  let n := Z.to_nat (lenRx (this w)) in
  fst r = STATE_DONE /\
  state (this (snd r)) = STATE_DONE /\
  bufRx (this (snd r)) = firstn n (a1 ++ a2) ++ skipn n (bufRx (this w)) /\
  rx (pSerial (snd r)) = skipn n (a1 ++ a2) /\
  error (this (snd r)) =
    Z.lor (error (this w))
      (_checkFrame
         (with_state STATE_BODY
            (with_error (error (this w)) (this (snd r))))) /\
  micros_reads (snd r) = (micros_reads w + 2)%nat /\
  (lenRx (this w) = lenTx (this w) ->
   (n <= length (bufTx (this w)))%nat ->
   a1 ++ a2 = firstn n (bufTx (this w)) ->
   firstn n (bufRx (this (snd r))) = firstn n (bufTx (this w)) /\
   rx (pSerial (snd r)) = []).
Proof.
  intros H Hc Harr r n. subst r.
  unfold transaction.
  rewrite run_bind, (sendBreak_run w H). cbn [fst snd].
  rewrite run_bind, arrive_run. cbn [fst snd this pSerial micros_src
    micros_reads trace rx baud app].
  rewrite run_bind.
  match goal with |- context [runState _sendFrame ?w1] => set (w1' := w1) end.
  assert (H1 : state (this w1') = STATE_BREAK) by reflexivity.
  assert (Hc1 : break_elapsed w1' = true).
  { apply break_elapsed_true. rewrite reading_0 in Hc.
    unfold reading in Hc. rewrite Nat.add_1_r in Hc. exact Hc. }
  rewrite (sendFrame_body w1' H1 Hc1). subst w1'.
  cbn [fst snd this pSerial micros_src micros_reads trace rx baud].
  rewrite run_bind, arrive_run.
  cbn [fst snd this pSerial micros_src micros_reads trace rx baud].
  match goal with
  | |- context [runState _receiveFrame ?w2] => set (w2' := w2)
  end.
  assert (H2 : state (this w2') = STATE_BODY) by reflexivity.
  assert (Hc2 : frame_arrived w2' = true).
  { apply frame_arrived_true. exact Harr. }
  rewrite (receiveFrame_done w2' H2 Hc2). subst w2'. cbn.
  fold n.
  assert (Hgot : length (firstn n (a1 ++ a2)) = n).
  { apply firstn_length_le. subst n. lia. }
  assert (Hbuf : store (firstn n (a1 ++ a2)) (bufRx (this w)) =
                 firstn n (a1 ++ a2) ++ skipn n (bufRx (this w))).
  { unfold store. rewrite Hgot. reflexivity. }
  unfold received, frame_read. cbn. fold n. rewrite Hbuf.
  do 5 (split; [reflexivity |]). split; [lia |].
  intros _ Hle Hecho. rewrite Hecho.
  assert (Hl : length (firstn n (bufTx (this w))) = n)
    by (apply firstn_length_le; exact Hle).
  split.
  - rewrite firstn_app. repeat rewrite firstn_firstn, Nat.min_id.
    rewrite Hl, Nat.sub_diag. cbn [firstn]. apply app_nil_r.
  - repeat rewrite firstn_firstn, Nat.min_id.
    apply skipn_all2. rewrite Hl. apply Nat.le_refl.
Qed.

Lemma with_bufRx_same (o : LIN_Master) : with_bufRx (bufRx o) o = o.
Proof. destruct o; reflexivity. Qed.

(** X8: a frame of length zero is received at once.  With [lenRx] zero
    [_receiveFrame] in STATE_BODY never waits and never times out: it goes
    to STATE_DONE on the first call, reads no byte, leaves [bufRx] and the
    queue as they are, does not read the clock, and checks the object as
    it stands. *)
Theorem zero_length_frame_completes_at_once (w : System) :
  state (this w) = STATE_BODY ->
  lenRx (this w) = 0 ->
  let r := runState _receiveFrame w in
  fst r = STATE_DONE /\
  this (snd r) =
    with_state STATE_DONE
      (with_error (Z.lor (error (this w)) (_checkFrame (this w))) (this w)) /\
  rx (pSerial (snd r)) = rx (pSerial w) /\
  baud (pSerial (snd r)) = baud (pSerial w) /\
  micros_reads (snd r) = micros_reads w /\
  trace (snd r) = trace w ++ [EvAvailable (avail w); EvReadBytes []].
Proof.
  intros H Hlen r. subst r.
  assert (Hc : frame_arrived w = true).
  { apply frame_arrived_true. rewrite Hlen. unfold avail. lia. }
  rewrite (receiveFrame_done w H Hc). cbn.
  assert (Hrec : received w = this w).
  { unfold received, frame_read. rewrite Hlen. cbn. unfold store. cbn.
    apply with_bufRx_same. }
  unfold frame_read. rewrite Hrec, Hlen. cbn.
  repeat split.
Qed.

(** What [_sendFrame] and [_receiveFrame] decide by, as shared by the
    statements below. *)
Lemma sendFrame_body_iff (w : System) :
  state (this w) = STATE_BREAK ->
  (state (this (snd (runState _sendFrame w))) = STATE_BODY
   <-> break_elapsed w = true).
Proof.
  intros H. destruct (break_elapsed w) eqn:Hc.
  - rewrite (sendFrame_body w H Hc). cbn. tauto.
  - destruct (deadline_passed (after_micros w)) eqn:Ht.
    + rewrite (sendFrame_timeout w H Hc Ht). cbn. split; congruence.
    + rewrite (sendFrame_wait w H Hc Ht). cbn. rewrite H. split; congruence.
Qed.

Lemma receiveFrame_timeout_iff (w : System) :
  state (this w) = STATE_BODY ->
  frame_arrived w = false ->
  (state (this (snd (runState _receiveFrame w))) = STATE_DONE
   <-> deadline_passed w = true).
Proof.
  intros H Hc. destruct (deadline_passed w) eqn:Ht.
  - rewrite (receiveFrame_timeout w H Hc Ht). cbn. tauto.
  - rewrite (receiveFrame_wait w H Hc Ht). cbn. rewrite H. split; congruence.
Qed.

(** X9: the time tests are right across a wrap of the clock.  When [d]
    microseconds (less than 2^32) have passed since [timeStart], or since
    [timeStartBreak], the methods decide by [d] itself, also when
    [micros()] has gone through zero in between: a waiting
    [_receiveFrame] times out exactly when [d > timeMax], and [_sendFrame]
    goes to STATE_BODY exactly when [d] is above two byte times. *)
Theorem time_tests_survive_clock_wraparound (w : System) (d : Z) :
  0 <= d < 2 ^ 32 ->
  (state (this w) = STATE_BODY ->
   avail w < lenRx (this w) ->
   micros_src w (micros_reads w) = timeStart (this w) + d ->
   (state (this (snd (runState _receiveFrame w))) = STATE_DONE
    <-> d > timeMax (this w))) /\
  (state (this w) = STATE_BREAK ->
   micros_src w (micros_reads w) = timeStartBreak (this w) + d ->
   (state (this (snd (runState _sendFrame w))) = STATE_BODY
    <-> d > u32 (timePerByte (this w) * 2))).
Proof.
  intros Hd. split.
  - intros H Hc Hclk. apply frame_arrived_false in Hc.
    rewrite (receiveFrame_timeout_iff w H Hc), deadline_passed_true.
    unfold now. rewrite Hclk, (u32_sub_elapsed _ d Hd). reflexivity.
  - intros H Hclk.
    rewrite (sendFrame_body_iff w H), break_elapsed_true.
    unfold now. rewrite Hclk, (u32_sub_elapsed _ d Hd). reflexivity.
Qed.

(** X10: the largest [timeMax] switches the timeout off.  An elapsed time
    is below 2^32, so with [timeMax] at [2^32 - 1] (or more) a waiting
    [_receiveFrame] and a waiting [_sendFrame] leave the object as it is,
    whatever the clock shows. *)
Theorem maximal_timeMax_never_times_out (w : System) :
  2 ^ 32 - 1 <= timeMax (this w) ->
  (state (this w) = STATE_BODY ->
   avail w < lenRx (this w) ->
   fst (runState _receiveFrame w) = STATE_BODY /\
   this (snd (runState _receiveFrame w)) = this w) /\
  (state (this w) = STATE_BREAK ->
   u32_sub (now w) (timeStartBreak (this w))
     <= u32 (timePerByte (this w) * 2) ->
   fst (runState _sendFrame w) = STATE_BREAK /\
   this (snd (runState _sendFrame w)) = this w).
Proof.
  intros Hmax. split.
  - intros H Hc. apply frame_arrived_false in Hc.
    assert (Ht : deadline_passed w = false).
    { apply deadline_passed_false.
      pose proof (u32_sub_below (now w) (timeStart (this w))). lia. }
    rewrite (receiveFrame_wait w H Hc Ht). split; reflexivity.
  - intros H Hc. apply break_elapsed_false in Hc.
    assert (Ht : deadline_passed (after_micros w) = false).
    { apply deadline_passed_false.
      pose proof (u32_sub_below (now (after_micros w))
                    (timeStart (this (after_micros w)))) as Hb.
      cbn [after_micros log tick this] in *. cbn in Hb |- *. lia. }
    rewrite (sendFrame_wait w H Hc Ht). split; reflexivity.
Qed.

Lemma poll_S (m : step) (n : nat) (w : System) :
  runState (poll m (S n)) w =
  runState (poll m n) (snd (runState (run_step m) w)).
Proof. cbn [poll]. apply run_bind. Qed.

Lemma poll_0 (m : step) (w : System) :
  runState (poll m 0) w = (state (this w), w).
Proof. reflexivity. Qed.

(** X11: polling for a frame that does not come.  With fewer than [lenRx]
    bytes in the queue, [n] calls of [_receiveFrame] whose readings of the
    clock are within [timeMax] and one call whose reading is above it end
    in STATE_DONE with ERROR_TIMEOUT or-ed in once; nothing else in the
    object and nothing in the port has changed, and the clock was read
    once per call. *)
Theorem receive_polling_until_timeout (n : nat) :
  forall w : System,
    state (this w) = STATE_BODY ->
    avail w < lenRx (this w) ->
    (forall j : nat, (j < n)%nat ->
       u32_sub (reading w j) (timeStart (this w)) <= timeMax (this w)) ->
    u32_sub (reading w n) (timeStart (this w)) > timeMax (this w) ->
    let r := runState (poll ReceiveFrame (S n)) w in
    fst r = STATE_DONE /\
    this (snd r) =
      with_state STATE_DONE
        (with_error (Z.lor (error (this w)) ERROR_TIMEOUT) (this w)) /\
    pSerial (snd r) = pSerial w /\
    micros_reads (snd r) = (micros_reads w + S n)%nat.
Proof.
  induction n as [| n IH]; intros w H Hc Hwait Hout r; subst r;
    apply frame_arrived_false in Hc; rewrite poll_S; cbn [run_step].
  - rewrite reading_0 in Hout. apply deadline_passed_true in Hout.
    rewrite (receiveFrame_timeout w H Hc Hout), poll_0. cbn.
    repeat split. lia.
  - assert (Ht : deadline_passed w = false).
    { apply deadline_passed_false. rewrite <- reading_0.
      apply Hwait. lia. }
    rewrite (receiveFrame_wait w H Hc Ht).
    cbn [snd].
    set (w1 := after_micros (after_available w)).
    assert (Hread : forall j, reading w1 j = reading w (S j)).
    { intros j. unfold reading, w1. cbn.
      rewrite Nat.add_succ_r. reflexivity. }
    destruct (IH w1) as (R1 & R2 & R3 & R4).
    + exact H.
    + apply frame_arrived_false. exact Hc.
    + intros j Hj. rewrite Hread. apply (Hwait (S j)). lia.
    + rewrite Hread. exact Hout.
    + repeat split; try assumption.
      rewrite R4. unfold w1. cbn. lia.
Qed.

(** X12: polling for the end of the break.  [n] calls of [_sendFrame] that
    find the break not over and the deadline not passed, and one call that
    finds the break over, end in STATE_BODY; the rest of the frame is
    written once, by the last call, at the nominal baud rate, and nothing
    else in the object has changed.  Each waiting call reads the clock
    twice, the last one once. *)
Theorem send_polling_until_break_over (n : nat) :
  forall w : System,
    state (this w) = STATE_BREAK ->
    (forall j : nat, (j < n)%nat ->
       u32_sub (reading w (2 * j)) (timeStartBreak (this w))
         <= u32 (timePerByte (this w) * 2) /\
       u32_sub (reading w (2 * j + 1)) (timeStart (this w))
         <= timeMax (this w)) ->
    u32_sub (reading w (2 * n)) (timeStartBreak (this w))
      > u32 (timePerByte (this w) * 2) ->
    let r := runState (poll SendFrame (S n)) w in
    fst r = STATE_BODY /\
    this (snd r) = with_state STATE_BODY (this w) /\
    written (trace (snd r)) = written (trace w) ++ frame_rest (this w) /\
    baud (pSerial (snd r)) = baudrate (this w) /\
    rx (pSerial (snd r)) = rx (pSerial w) /\
    micros_reads (snd r) = (micros_reads w + 2 * n + 1)%nat.
Proof.
  induction n as [| n IH]; intros w H Hwait Hover r; subst r;
    rewrite poll_S; cbn [run_step].
  - cbn [Nat.mul] in Hover. rewrite reading_0 in Hover.
    apply break_elapsed_true in Hover.
    rewrite (sendFrame_body w H Hover), poll_0. cbn.
    repeat split.
    + rewrite written_app. cbn. rewrite app_nil_r. reflexivity.
    + lia.
  - destruct (Hwait 0%nat ltac:(lia)) as [Hc Ht].
    cbn [Nat.mul Nat.add] in Hc, Ht.
    rewrite reading_0 in Hc. apply break_elapsed_false in Hc.
    assert (Ht' : deadline_passed (after_micros w) = false).
    { apply deadline_passed_false. unfold reading in Ht.
      rewrite Nat.add_1_r in Ht. exact Ht. }
    rewrite (sendFrame_wait w H Hc Ht'). cbn [snd].
    set (w1 := after_micros (after_micros w)).
    assert (Hread : forall j, reading w1 j = reading w (2 + j)).
    { intros j. unfold reading, w1. cbn.
      rewrite !Nat.add_succ_r. reflexivity. }
    destruct (IH w1) as (R1 & R2 & R3 & R4 & R5 & R6).
    + exact H.
    + intros j Hj. rewrite !Hread.
      replace (2 + 2 * j)%nat with (2 * S j)%nat by lia.
      replace (2 + (2 * j + 1))%nat with (2 * S j + 1)%nat by lia.
      apply Hwait. lia.
    + rewrite Hread.
      replace (2 + 2 * n)%nat with (2 * S n)%nat by lia. exact Hover.
    + split; [exact R1 |]. split; [exact R2 |].
      split; [| split; [exact R4 | split; [exact R5 |]]].
      * rewrite R3. unfold w1. cbn. rewrite !written_app. cbn.
        rewrite !app_nil_r. reflexivity.
      * rewrite R6. unfold w1. cbn. lia.
Qed.

End Further.

(* ===================================================================== *)
(** ** The further properties at concrete systems *)

(** A second [_sendBreak] during the break is rejected, and after it
    [_sendFrame] changes nothing. *)
Lemma rejected_call_is_final_witness :
  state (this sys_break_over) <> expects SendBreak /\
  snd (runState (run_step (base := sample_base) SendBreak) sys_break_over)
    = sample_system STATE_DONE 1 [] (clock_at 2200) /\
  runState (run_step (base := sample_base) SendFrame)
           (snd (runState (run_step (base := sample_base) SendBreak)
                          sys_break_over))
    = (STATE_DONE, sample_system STATE_DONE 1 [] (clock_at 2200)).
Proof.
  assert (H : state (this sys_break_over) <> expects SendBreak)
    by discriminate.
  split; [exact H |]. split; [reflexivity |].
  exact (rejected_call_is_final (base := sample_base) SendBreak SendFrame
           sys_break_over H).
Defined.

(** [_sendFrame] has sent the frame; called again, it is rejected. *)
Lemma step_progress_is_one_shot_witness :
  state (this (snd (runState (run_step (base := sample_base) SendFrame)
                             sys_break_over)))
    <> state (this sys_break_over) /\
  fst (runState (run_step (base := sample_base) SendFrame)
         (snd (runState (run_step (base := sample_base) SendFrame)
                        sys_break_over))) = STATE_DONE /\
  error (this (snd (runState (run_step (base := sample_base) SendFrame)
         (snd (runState (run_step (base := sample_base) SendFrame)
                        sys_break_over))))) = 1.
Proof.
  assert (H : state (this (snd (runState
                (run_step (base := sample_base) SendFrame) sys_break_over)))
              <> state (this sys_break_over)) by discriminate.
  pose proof (step_progress_is_one_shot (base := sample_base) SendFrame
                sys_break_over H) as T.
  cbv zeta in T.
  split; [exact H |]. split.
  - exact (f_equal fst T).
  - exact (f_equal (fun r => error (this (snd r))) T).
Defined.

(** The six bytes of a write request leave in two writes. *)
Lemma break_then_frame_sends_whole_frame_witness :
  state (this (request_system STATE_IDLE [17; 34] (clock_then 1100 2200)))
    = STATE_IDLE /\
  written (trace (snd (runState
     (_sendBreak (base := sample_base) ;; _sendFrame (base := sample_base))
     (request_system STATE_IDLE [17; 34] (clock_then 1100 2200)))))
    = [0; 85; 80; 1; 2; 252] /\
  baud (pSerial (snd (runState
     (_sendBreak (base := sample_base) ;; _sendFrame (base := sample_base))
     (request_system STATE_IDLE [17; 34] (clock_then 1100 2200)))))
    = 19200.
Proof.
  pose (w := request_system STATE_IDLE [17; 34] (clock_then 1100 2200)).
  assert (H : state (this w) = STATE_IDLE) by reflexivity.
  assert (Hlen : 1 <= lenTx (this w) <= Z.of_nat (length (bufTx (this w))))
    by by_computation.
  assert (Hfit : lenTx (this w) <= 2 ^ 32) by by_computation.
  assert (Hc : u32_sub (reading w 1) (reading w 0)
               > u32 (timePerByte (this w) * 2)) by reflexivity.
  pose proof (break_then_frame_sends_whole_frame (base := sample_base)
                w H Hlen Hfit Hc) as T.
  cbv zeta in T. destruct T as (_ & T2 & T3 & _).
  split; [exact H |]. split; [exact T2 | exact T3].
Defined.

(** A write request on a bus that echoes: the stray bytes are gone, the
    echo is in [bufRx] and the check finds no error. *)
Lemma transaction_reads_what_arrived_witness :
  state (this (request_system STATE_IDLE [17; 34] (clock_then 1100 2200)))
    = STATE_IDLE /\
  fst (runState (transaction (base := sample_base) [0] [85; 80; 1; 2; 252])
         (request_system STATE_IDLE [17; 34] (clock_then 1100 2200)))
    = STATE_DONE /\
  bufRx (this (snd (runState
     (transaction (base := sample_base) [0] [85; 80; 1; 2; 252])
     (request_system STATE_IDLE [17; 34] (clock_then 1100 2200)))))
    = [0; 85; 80; 1; 2; 252; 9; 9; 9; 9; 9; 9] /\
  error (this (snd (runState
     (transaction (base := sample_base) [0] [85; 80; 1; 2; 252])
     (request_system STATE_IDLE [17; 34] (clock_then 1100 2200)))))
    = 0 /\
  rx (pSerial (snd (runState
     (transaction (base := sample_base) [0] [85; 80; 1; 2; 252])
     (request_system STATE_IDLE [17; 34] (clock_then 1100 2200)))))
    = [].
Proof.
  pose (w := request_system STATE_IDLE [17; 34] (clock_then 1100 2200)).
  assert (H : state (this w) = STATE_IDLE) by reflexivity.
  assert (Hc : u32_sub (reading w 1) (reading w 0)
               > u32 (timePerByte (this w) * 2)) by reflexivity.
  assert (Harr : lenRx (this w)
                 <= Z.of_nat (length ([0] ++ [85; 80; 1; 2; 252])))
    by by_computation.
  pose proof (transaction_reads_what_arrived (base := sample_base)
                [0] [85; 80; 1; 2; 252] w H Hc Harr) as T.
  cbv zeta in T. destruct T as (T1 & _ & T3 & _ & T5 & _ & T7).
  assert (Heq : lenRx (this w) = lenTx (this w)) by reflexivity.
  assert (Hle : (Z.to_nat (lenRx (this w)) <= length (bufTx (this w)))%nat)
    by (vm_compute; repeat constructor).
  assert (Hecho : [0] ++ [85; 80; 1; 2; 252]
                  = firstn (Z.to_nat (lenRx (this w))) (bufTx (this w)))
    by reflexivity.
  destruct (T7 Heq Hle Hecho) as [_ T8].
  split; [exact H |]. split; [exact T1 |]. split; [exact T3 |].
  split; [exact T5 | exact T8].
Defined.

(** Nothing expected: done at once, long after the deadline. *)
Lemma zero_length_frame_completes_at_once_witness :
  state (this (timing_system STATE_BODY 0 1000 5000 (clock_at 9000)))
    = STATE_BODY /\
  lenRx (this (timing_system STATE_BODY 0 1000 5000 (clock_at 9000))) = 0 /\
  fst (runState (_receiveFrame (base := sample_base))
         (timing_system STATE_BODY 0 1000 5000 (clock_at 9000)))
    = STATE_DONE /\
  rx (pSerial (snd (runState (_receiveFrame (base := sample_base))
         (timing_system STATE_BODY 0 1000 5000 (clock_at 9000)))))
    = [0; 85].
Proof.
  pose (w := timing_system STATE_BODY 0 1000 5000 (clock_at 9000)).
  assert (H : state (this w) = STATE_BODY) by reflexivity.
  assert (Hlen : lenRx (this w) = 0) by reflexivity.
  pose proof (zero_length_frame_completes_at_once (base := sample_base)
                w H Hlen) as T.
  cbv zeta in T. destruct T as (T1 & _ & T3 & _).
  split; [exact H |]. split; [exact Hlen |]. split; [exact T1 | exact T3].
Defined.

(** The transaction started 100 microseconds before the clock wrapped,
    6000 microseconds ago: the clock shows 5900 and the frame times out.
    A break sent 1100 microseconds ago is over. *)
Lemma time_tests_survive_clock_wraparound_witness :
  (0 <= 6000 < 2 ^ 32 /\
   now (timing_system STATE_BODY 6 4294967196 5000 (clock_at 4294973196))
     = 5900 /\
   state (this (snd (runState (_receiveFrame (base := sample_base))
      (timing_system STATE_BODY 6 4294967196 5000 (clock_at 4294973196)))))
     = STATE_DONE) /\
  (0 <= 1100 < 2 ^ 32 /\
   state (this (snd (runState (_sendFrame (base := sample_base))
                              sys_break_over))) = STATE_BODY).
Proof.
  pose (w := timing_system STATE_BODY 6 4294967196 5000
               (clock_at 4294973196)).
  assert (Hd : 0 <= 6000 < 2 ^ 32) by by_computation.
  assert (H : state (this w) = STATE_BODY) by reflexivity.
  assert (Hc : avail w < lenRx (this w)) by reflexivity.
  assert (Hclk : micros_src w (micros_reads w) = timeStart (this w) + 6000)
    by reflexivity.
  assert (Hgt : 6000 > timeMax (this w)) by reflexivity.
  assert (Hd' : 0 <= 1100 < 2 ^ 32) by by_computation.
  assert (H' : state (this sys_break_over) = STATE_BREAK) by reflexivity.
  assert (Hclk' : micros_src sys_break_over (micros_reads sys_break_over)
                  = timeStartBreak (this sys_break_over) + 1100)
    by reflexivity.
  assert (Hgt' : 1100 > u32 (timePerByte (this sys_break_over) * 2))
    by reflexivity.
  split.
  - split; [exact Hd |]. split; [reflexivity |].
    exact (proj2 (proj1 (time_tests_survive_clock_wraparound
                           (base := sample_base) w 6000 Hd) H Hc Hclk) Hgt).
  - split; [exact Hd' |].
    exact (proj2 (proj2 (time_tests_survive_clock_wraparound
                           (base := sample_base) sys_break_over 1100 Hd')
                        H' Hclk') Hgt').
Defined.

(** With [timeMax] at 2^32 - 1 and the clock one microsecond before
    [timeStart], the largest elapsed time there is, both methods wait. *)
Lemma maximal_timeMax_never_times_out_witness :
  2 ^ 32 - 1
    <= timeMax (this (timing_system STATE_BODY 6 1000 4294967295
                                    (clock_at 999))) /\
  u32_sub (now (timing_system STATE_BODY 6 1000 4294967295 (clock_at 999)))
          1000 = 4294967295 /\
  fst (runState (_receiveFrame (base := sample_base))
         (timing_system STATE_BODY 6 1000 4294967295 (clock_at 999)))
    = STATE_BODY /\
  fst (runState (_sendFrame (base := sample_base))
         (timing_system STATE_BREAK 6 1000 4294967295
                       (clock_then 1500 999)))
    = STATE_BREAK.
Proof.
  pose (w := timing_system STATE_BODY 6 1000 4294967295 (clock_at 999)).
  pose (v := timing_system STATE_BREAK 6 1000 4294967295
                       (clock_then 1500 999)).
  assert (Hmax : 2 ^ 32 - 1 <= timeMax (this w)) by by_computation.
  assert (H : state (this w) = STATE_BODY) by reflexivity.
  assert (Hc : avail w < lenRx (this w)) by reflexivity.
  assert (Hmax' : 2 ^ 32 - 1 <= timeMax (this v)) by by_computation.
  assert (H' : state (this v) = STATE_BREAK) by reflexivity.
  assert (Hc' : u32_sub (now v) (timeStartBreak (this v))
                <= u32 (timePerByte (this v) * 2)).
  { vm_compute. discriminate. }
  split; [exact Hmax |]. split; [reflexivity |]. split.
  - exact (proj1 (proj1 (maximal_timeMax_never_times_out
                           (base := sample_base) w Hmax) H Hc)).
  - exact (proj1 (proj2 (maximal_timeMax_never_times_out
                           (base := sample_base) v Hmax') H' Hc')).
Defined.

(** Polls at 3000, 4000, 5000 and 6000 wait; the poll at 7000 times
    out. *)
Lemma receive_polling_until_timeout_witness :
  state (this (sample_system STATE_BODY 0 [0; 85] (clock_steps 3000 1000)))
    = STATE_BODY /\
  fst (runState (poll (base := sample_base) ReceiveFrame 5)
         (sample_system STATE_BODY 0 [0; 85] (clock_steps 3000 1000)))
    = STATE_DONE /\
  this (snd (runState (poll (base := sample_base) ReceiveFrame 5)
         (sample_system STATE_BODY 0 [0; 85] (clock_steps 3000 1000))))
    = sample_object STATE_DONE 4 /\
  micros_reads (snd (runState (poll (base := sample_base) ReceiveFrame 5)
         (sample_system STATE_BODY 0 [0; 85] (clock_steps 3000 1000))))
    = 5%nat.
Proof.
  pose (w := sample_system STATE_BODY 0 [0; 85] (clock_steps 3000 1000)).
  assert (H : state (this w) = STATE_BODY) by reflexivity.
  assert (Hc : avail w < lenRx (this w)) by reflexivity.
  assert (Hwait : forall j : nat, (j < 4)%nat ->
            u32_sub (reading w j) (timeStart (this w)) <= timeMax (this w)).
  { intros j Hj.
    destruct j as [| [| [| [| j]]]];
      [ vm_compute; discriminate .. | exfalso; lia ]. }
  assert (Hout : u32_sub (reading w 4) (timeStart (this w))
                 > timeMax (this w)) by reflexivity.
  pose proof (receive_polling_until_timeout (base := sample_base) 4 w
                H Hc Hwait Hout) as T.
  cbv zeta in T. destruct T as (T1 & T2 & _ & T4).
  split; [exact H |]. split; [exact T1 |]. split; [exact T2 | exact T4].
Defined.

(** Polls at 1500 and 1900 find the break going on, the poll at 2300
    sends SYNC and the identifier. *)
Lemma send_polling_until_break_over_witness :
  state (this (sample_system STATE_BREAK 0 [] (clock_steps 1500 200)))
    = STATE_BREAK /\
  fst (runState (poll (base := sample_base) SendFrame 3)
         (sample_system STATE_BREAK 0 [] (clock_steps 1500 200)))
    = STATE_BODY /\
  written (trace (snd (runState (poll (base := sample_base) SendFrame 3)
         (sample_system STATE_BREAK 0 [] (clock_steps 1500 200)))))
    = [85; 80] /\
  micros_reads (snd (runState (poll (base := sample_base) SendFrame 3)
         (sample_system STATE_BREAK 0 [] (clock_steps 1500 200))))
    = 5%nat.
Proof.
  pose (w := sample_system STATE_BREAK 0 [] (clock_steps 1500 200)).
  assert (H : state (this w) = STATE_BREAK) by reflexivity.
  assert (Hwait : forall j : nat, (j < 2)%nat ->
            u32_sub (reading w (2 * j)) (timeStartBreak (this w))
              <= u32 (timePerByte (this w) * 2) /\
            u32_sub (reading w (2 * j + 1)) (timeStart (this w))
              <= timeMax (this w)).
  { intros j Hj.
    destruct j as [| [| j]];
      [ split; vm_compute; discriminate .. | exfalso; lia ]. }
  assert (Hover : u32_sub (reading w (2 * 2)) (timeStartBreak (this w))
                  > u32 (timePerByte (this w) * 2)) by reflexivity.
  pose proof (send_polling_until_break_over (base := sample_base) 2 w
                H Hwait Hover) as T.
  cbv zeta in T. destruct T as (T1 & _ & T3 & _ & _ & T6).
  split; [exact H |]. split; [exact T1 |]. split; [exact T3 | exact T6].
Defined.
